(** * Measurement recipes of DasMessProgramm: sweep loops, convergence
    detection and the magnet phase machine.

    Shallow embedding of the measurement classes under
    [src/measurement/].  Python code with side effects on instruments is
    modelled in a small state-and-exception monad: the state carries the
    ordered trace of observable effects (instrument commands, records
    written to the data file, UI signals, log lines) together with the
    attributes of the measurement object; a Python exception is a
    [Raise] that keeps the effects performed before it.  Values returned
    by instruments are given by oracles (functions of the iteration or
    tick number); an oracle value [None] stands for a read that raises.
    Real numbers handled by the code are modelled as rationals [Q]. *)

From Stdlib Require Import List Bool Arith ZArith Lia QArith Qabs Sorted.
Import ListNotations.

(** ** A state-and-exception monad for the Python control flow *)
Module Py.

(** Exceptions the modelled code can raise.  [OutOfFuel] is not a Python
    exception: it marks a [while] loop of the model that has not exited
    within the number of ticks it was given. *)
Inductive exc :=
| DeviceError        (** an instrument call failed *)
| UnboundLocalError  (** a local variable read before assignment *)
| IndexError         (** a list index out of range *)
| ZeroDivisionError  (** a float division by zero *)
| OutOfFuel.

Inductive res (S A : Type) :=
| Ok (a : A) (s : S)
| Raise (e : exc) (s : S).
Arguments Ok {S A} a s.
Arguments Raise {S A} e s.

Definition M (S A : Type) := S -> res S A.

Definition ret {S A} (a : A) : M S A := fun s => Ok a s.

Definition bind {S A B} (m : M S A) (k : A -> M S B) : M S B :=
  fun s => match m s with
           | Ok a s' => k a s'
           | Raise e s' => Raise e s'
           end.

Definition raise {S A} (e : exc) : M S A := fun s => Raise e s.

Definition get {S} : M S S := fun s => Ok s s.
Definition put {S} (s : S) : M S unit := fun _ => Ok tt s.
Definition modify {S} (f : S -> S) : M S unit := fun s => Ok tt (f s).

(** [try m except: h]: a bare [except] catches every exception. *)
Definition try_except {S A} (m : M S A) (h : exc -> M S A) : M S A :=
  fun s => match m s with
           | Ok a s' => Ok a s'
           | Raise e s' => h e s'
           end.

(** A value read from an instrument: [None] means the read raised. *)
Definition read {S A} (o : option A) : M S A :=
  match o with Some a => ret a | None => raise DeviceError end.

(** [while cond: body] with a bound on the number of iterations. *)
Fixpoint while_ {S} (fuel : nat) (cond : M S bool) (body : M S unit) : M S unit :=
  match fuel with
  | O => raise OutOfFuel
  | S f => bind cond (fun c => if c then bind body (fun _ => while_ f cond body)
                            else ret tt)
  end.

End Py.

Import Py.
Declare Scope py_scope.
Delimit Scope py_scope with py.
Notation "x <- m ;; k" := (bind m (fun x => k))
  (at level 61, m at next level, right associativity) : py_scope.
Notation "m ;; k" := (bind m (fun _ => k))
  (at level 61, right associativity) : py_scope.
Open Scope py_scope.

(** ** Floating-point readings

    A temperature reading is a finite number or NaN.  As in Python, every
    ordered comparison with NaN is false and arithmetic propagates it. *)
Inductive fl := Fin (q : Q) | NaN.

Definition fl_sub (a b : fl) : fl :=
  match a, b with Fin x, Fin y => Fin (x - y) | _, _ => NaN end.
Definition fl_abs (a : fl) : fl :=
  match a with Fin x => Fin (Qabs x) | NaN => NaN end.
Definition fl_lt (a b : fl) : bool :=
  match a, b with Fin x, Fin y => negb (Qle_bool y x) | _, _ => false end.
Definition fl_gt (a b : fl) : bool := fl_lt b a.

(** ** Observable effects *)

Inductive sweep_mode := TO_SET_POINT | HOLD | TO_ZERO.

Inductive ev :=
| WriteHeader
| Arm | Disarm
| SetVoltage (v : Q)
| Record (vals : list Q)          (** one line written to the data file *)
| EmitData | EmitAborted
| LogError                        (** timestamped message and traceback *)
| SetTempSweep (target : Q) (sweep_time : fl) | StartTempSweep | StopTempSweep
| SetTempSetPoint (t : fl)
| SetSensitivity (index : Z)      (** [self._device.sens = index] *)
| TogglePid (on : bool)
| Notify                          (** telegram status message *)
| SetTargetField (f : Q) | SetSweepMode (m : sweep_mode)
| Sleep (seconds : Q).

(** The state of a measurement object: its trace of effects and the
    attributes of the class ([loc]). *)
Record St (X : Type) := mkSt { trace : list ev; loc : X }.
Arguments mkSt {X} trace loc.
Arguments trace {X} s.
Arguments loc {X} s.

Definition emit {X} (e : ev) : M (St X) unit :=
  modify (fun s => mkSt (trace s ++ [e]) (loc s)).

Definition get_loc {X} : M (St X) X := bind get (fun s => ret (loc s)).

Definition set_loc {X} (x : X) : M (St X) unit :=
  modify (fun s => mkSt (trace s) x).

(** Comparisons on [Q] as the boolean tests of the code. *)
Definition qlt (a b : Q) : bool := negb (Qle_bool b a).
Definition qzero (a : Q) : bool := Qeq_bool a 0.

(** ** [numpy.linspace(start, stop, num)] *)
Definition linspace (start stop : Q) (num : nat) : list Q :=
  match num with
  | O => []
  | S O => [start]
  | S k => map (fun i => start + (inject_Z (Z.of_nat i)) * (stop - start) / inject_Z (Z.of_nat k))
                (seq 0 num)
  end.

(** ** [SMU2Probe2636A._measure] (src/measurement/smu_2probe_2636A.py)

    The voltage ramp: [for voltage in np.linspace(0, max_voltage, n)].
    The oracles are indexed by the number of completed trajectory steps:
    [is_set k] is the value of [_should_stop.is_set()] at the check made
    after [k] completed steps, [dev_read k] the result of
    [_device.read()] at step [k]. *)
Module Ramp.

Section Ramp.
Variable is_set : nat -> bool.
Variable dev_read : nat -> option (Q * Q).

Definition initialize_device : M (St nat) unit := emit Arm.

Definition deinitialize_device : M (St nat) unit :=
  emit (SetVoltage 0) ;; emit Disarm.

(** The counter [loc] is the number of completed steps. *)
Fixpoint ramp_loop (traj : list Q) : M (St nat) unit :=
  match traj with
  | [] => ret tt
  | voltage :: rest =>
      k <- get_loc ;;
      if is_set k then
        emit EmitAborted
      else
        emit (SetVoltage voltage) ;;
        vi <- read (dev_read k) ;;
        let '(v, i) := vi in
        emit (Record [v; i]) ;;
        emit EmitData ;;
        set_loc (S k) ;;
        ramp_loop rest
  end.

Definition measure (traj : list Q) : M (St nat) unit :=
  emit WriteHeader ;;
  initialize_device ;;
  emit (Sleep (1#2)) ;;
  ramp_loop traj ;;
  deinitialize_device.

End Ramp.

Definition start : St nat := mkSt [] 0%nat.

Definition trajectory (max_voltage : Q) (number_of_points : nat) : list Q :=
  linspace 0 max_voltage number_of_points.

End Ramp.

(** ** [SMU2ProbeHSweep2636A._setup_voltage_space]
    (src/measurement/smu_2probe_hSweep_2636A.py)

    The voltage space of the field-step sweep: 0 -> max -> 0.  Only this
    method of the class is modelled.  As written the file does not parse
    (a comma is missing in [outputs] and [_write_header] is mis-indented),
    and [__init__] reads names it never defines ([fields], [sweep_rate],
    [self.State]), so the class cannot run; [SMU2ProbeHSweep2636AIvU]
    reuses the code of this method. *)
Module HSweep.

Definition setup_voltage_space (max_voltage : Q) (number_of_points : nat) : list Q :=
  linspace 0 max_voltage number_of_points ++ linspace max_voltage 0 number_of_points.

End HSweep.

(** ** Further methods of the measurement classes *)

(** Python's [lst[i]] for an integer [i]: a negative index counts from
    the end; [None] is the [IndexError] of an index out of range. *)
Definition py_index {A} (l : list A) (i : Z) : option A :=
  if (i <? 0)%Z then
    if (- Z.of_nat (length l) <=? i)%Z
    then nth_error l (Z.to_nat (Z.of_nat (length l) + i))
    else None
  else nth_error l (Z.to_nat i).

(** [SRS830RvTBlue._check_sensitivitiy] (src/measurement/srs_temp_sweep.py). *)
Module Sens.

Definition sensitivity_list : list Q :=
  [2 # 1000000000; 5 # 1000000000; 1 # 100000000; 2 # 100000000; 5 # 100000000;
   1 # 10000000; 2 # 10000000; 5 # 10000000; 1 # 1000000; 2 # 1000000;
   5 # 1000000; 1 # 100000; 2 # 100000; 5 # 100000; 1 # 10000; 2 # 10000;
   5 # 10000; 1 # 1000; 2 # 1000; 5 # 1000; 1 # 100; 2 # 100; 5 # 100;
   1 # 10; 2 # 10; 5 # 10; 1].

(** [now] is the value of [time()] in the test, [now_after] the value of
    [time()] stored afterwards, [sens_check_time] the attribute
    [_sens_check_time].  The result is the value written to
    [self._device.sens], if any, and the new [_sens_check_time]; [None]
    is the [IndexError] of [sensitivity_list[int(sensitivity)]]. *)
Definition check_sensitivitiy (r : Q) (sensitivity : Z) (now now_after sens_check_time : Q)
  : option (option Z * Q) :=
  if qlt (sens_check_time + 10) now then
    match py_index sensitivity_list sensitivity with
    | None => None
    | Some sensitivity_range_max =>
        if qlt ((9 # 10) * sensitivity_range_max) r then Some (Some (sensitivity + 1)%Z, now_after)
        else if qlt r ((1 # 4) * sensitivity_range_max) then Some (Some (sensitivity - 1)%Z, now_after)
        else Some (None, now_after)
    end
  else Some (None, sens_check_time).

End Sens.

(** The range checks of the constructors, before [self.abort()]: of
    [SRS830RvTBlue.__init__] (temperature end and sweep rate) and of
    [SMU2ProbeHSweep2636AIvB.__init__] (maximal field and sweep rate). *)
Definition srs_init_accepts (temperature_end sweep_rate : Q) : bool :=
  Qle_bool 0 temperature_end && Qle_bool temperature_end 295 &&
  Qle_bool 0 sweep_rate && Qle_bool sweep_rate (5 # 2).

Definition ivb_init_accepts (max_field sweep_rate : Q) : bool :=
  Qle_bool 0 max_field && Qle_bool max_field 8 &&
  Qle_bool 0 sweep_rate && Qle_bool sweep_rate 1.

(** [SRS830RvTBlue._start_sweep]:
    [sweep_time = abs((current_temperature - self._temperature_end) / self._sweep_rate)].
    [None]: a float division by zero raises [ZeroDivisionError]. *)
Definition sweep_time (current_temperature : fl) (temperature_end sweep_rate : Q) : option fl :=
  if qzero sweep_rate then None
  else Some (match current_temperature with
             | Fin c => Fin (Qabs ((c - temperature_end) / sweep_rate))
             | NaN => NaN
             end).

(** ** [numpy.polyfit(np.arange(0, len(ys)), ys, 1)]: the fitted slope

    The least-squares slope over the abscissae 0 .. m-1.  The fit solves
    the least-squares problem with the (finite) Vandermonde matrix of the
    abscissae; a NaN among the readings only enters the right-hand side,
    so numpy returns NaN coefficients and raises nothing.  For the eleven
    distinct abscissae of the detector the fit never fails. *)
Fixpoint sum_q (ys : list Q) : Q :=
  match ys with [] => 0 | y :: r => y + sum_q r end.

Fixpoint sum_xy (i : nat) (ys : list Q) : Q :=
  match ys with
  | [] => 0
  | y :: r => inject_Z (Z.of_nat i) * y + sum_xy (S i) r
  end.

Definition arange (m : nat) : list Q := map (fun i => inject_Z (Z.of_nat i)) (seq 0 m).

Definition ls_slope (ys : list Q) : Q :=
  let m := inject_Z (Z.of_nat (length ys)) in
  let sx := sum_q (arange (length ys)) in
  let sxx := sum_xy 0 (arange (length ys)) in
  (m * sum_xy 0 ys - sx * sum_q ys) / (m * sxx - sx * sx).

Fixpoint finite_all (ys : list fl) : option (list Q) :=
  match ys with
  | [] => Some []
  | Fin y :: r => option_map (cons y) (finite_all r)
  | NaN :: _ => None
  end.

Definition polyfit_slope (ys : list fl) : fl :=
  match finite_all ys with Some qs => Fin (ls_slope qs) | None => NaN end.

(** [rate, mean = np.polyfit(...)]: the slope. *)
Definition polyfit1 {S} (ys : list fl) : M S fl := ret (polyfit_slope ys).

(** Python's [lst[-n:]]. *)
Definition lastn {A} (n : nat) (l : list A) : list A := skipn (length l - n) l.

(** ** Temperature sweeps: [SRS830RvTBlue] (src/measurement/srs_temp_sweep.py)
    and the convergence check of [SMU2ProbeIvTBlue]
    (src/measurement/smu_2636A_2probe_TSweep_IvT.py).

    The attributes used by the loop: [_last_temperatures],
    [_temperature_end], [_last_toggle], [_sens_check_time], the flag value
    set by the code itself ([stopped]) and the tick counter of the model. *)
Module Temp.

Record tstate := mkT {
  last_temperatures : list fl;
  temperature_end : Q;
  last_toggle : Q;
  stopped : bool;
  tick : nat;
  sens_check_time : Q }.

Definition set_window (x : tstate) (w : list fl) : tstate :=
  mkT w (temperature_end x) (last_toggle x) (stopped x) (tick x) (sens_check_time x).

Definition set_sens_check_time (x : tstate) (t : Q) : tstate :=
  mkT (last_temperatures x) (temperature_end x) (last_toggle x) (stopped x) (tick x) t.

(** What the instruments return to one call of [_acquire_data_point];
    [None] when the access raises. *)
Record acq_in := mkAcq {
  outputs : option (Q * Q * Q * Q);  (** outpX, outpY, outpR, outpT *)
  sens : option Z;                    (** [self._device.sens] *)
  temps : option (Q * Q * Q);         (** T1, T2, T3 *)
  slvl : option Q;                    (** [self._device.slvl] *)
  sens_now : Q;                       (** [time()] in the test of [_check_sensitivitiy] *)
  sens_after : Q;                     (** [time()] stored in [_sens_check_time] *)
  sens_written : bool }.              (** the assignment of [self._device.sens] succeeds *)

(** What the instruments return during one tick of the loop: one entry
    per instrument access of the code, [None] when the access raises. *)
Record tick_in := mkTick {
  acquire : acq_in;
  T1_toggle : option fl;
  now : Q;
  T1_check : option fl;
  T3_first : option fl;
  T3_retry : option fl;
  T1_safety : option fl }.

Definition maximal_list_len : nat := 10.
Definition stability_rate : Q := 1 # 1200.   (* 0.1/120 *)

(** The part of [_check_temp_reached] after the fast-path test, the same
    in both classes.  [np.abs(rate) < stability_rate] is false for a NaN
    slope. *)
Definition check_window (i : tick_in) : M (St tstate) bool :=
  T3 <- try_except (read (T3_first i)) (fun _ => read (T3_retry i)) ;;
  x <- get_loc ;;
  if Nat.ltb (length (last_temperatures x)) maximal_list_len then
    set_loc (set_window x (last_temperatures x ++ [T3])) ;;
    ret false
  else
    set_loc (set_window x (lastn maximal_list_len (last_temperatures x) ++ [T3])) ;;
    y <- get_loc ;;
    rate <- try_except (r <- polyfit1 (last_temperatures y) ;; ret (Some r))
                       (fun _ => emit LogError ;; ret None) ;;
    match rate with
    | None => raise UnboundLocalError
    | Some r => ret (fl_lt (fl_abs r) (Fin stability_rate))
    end.

(** [SRS830RvTBlue._check_temp_reached]:
    [if np.abs(self._temp.T1 - self._temperature_end) > 1.0: return False] *)
Definition check_temp_reached (i : tick_in) : M (St tstate) bool :=
  T1 <- read (T1_check i) ;;
  x <- get_loc ;;
  if fl_gt (fl_abs (fl_sub T1 (Fin (temperature_end x)))) (Fin 1) then ret false
  else check_window i.

(** [SMU2ProbeIvTBlue._check_temp_reached]:
    [if (self._temp.T1 - self._temperature_end) > 1.0: return False] *)
Definition check_temp_reached_ivt (i : tick_in) : M (St tstate) bool :=
  T1 <- read (T1_check i) ;;
  x <- get_loc ;;
  if fl_gt (fl_sub T1 (Fin (temperature_end x))) (Fin 1) then ret false
  else check_window i.

(** [SRS830RvTBlue._check_sensitivitiy(r, sensitivity)]: the new
    sensitivity is assigned to the device before [_sens_check_time] is
    updated. *)
Definition check_sensitivitiy (a : acq_in) (r : Q) (sensitivity : Z) : M (St tstate) unit :=
  x <- get_loc ;;
  match Sens.check_sensitivitiy r sensitivity (sens_now a) (sens_after a) (sens_check_time x) with
  | None => raise IndexError
  | Some (new_sens, t) =>
      (match new_sens with
       | Some v => if sens_written a then emit (SetSensitivity v) else raise DeviceError
       | None => ret tt
       end) ;;
      y <- get_loc ;;
      set_loc (set_sens_check_time y t)
  end.

(** [SRS830RvTBlue._acquire_data_point]: the reads, the line written to
    the file, then [x / self._device.slvl * self._pre_resistance], the
    data signal and the sensitivity check. *)
Definition acquire_data_point (a : acq_in) : M (St tstate) unit :=
  xyrt <- read (outputs a) ;;
  sensitivity <- read (sens a) ;;
  T123 <- read (temps a) ;;
  let '(x, y, r, t) := xyrt in
  let '(T1, T2, T3) := T123 in
  emit (Record [x; y; r; t; inject_Z sensitivity; T1; T2; T3]) ;;
  level <- read (slvl a) ;;
  if qzero level then raise ZeroDivisionError
  else
    emit EmitData ;;
    check_sensitivitiy a r sensitivity.

Definition toggle_pid_if_necessary (i : tick_in) : M (St tstate) unit :=
  current_temperature <- read (T1_toggle i) ;;
  x <- get_loc ;;
  if fl_lt (Fin 20) current_temperature && fl_lt current_temperature (Fin 30)
     && qlt 100 (now i - last_toggle x)
  then emit (TogglePid false) ;; emit (Sleep (1#2)) ;; emit (TogglePid true)
  else ret tt.

(** [send_meassage_telegram]: it reads the status of the instruments and
    sends the message; [sent = false] when one of these calls raises. *)
Definition send_meassage_telegram (sent : bool) : M (St tstate) unit :=
  if sent then emit Notify else raise DeviceError.

Section Run.
Variable ext_stop : nat -> bool.   (** the flag as set from outside, per tick *)
Variable world : nat -> tick_in.
Variable T1_start : option fl.     (** [self._temp.T1] in [_start_sweep] *)
Variable sweep_rate : Q.           (** [self._sweep_rate] *)
Variable start_sent : bool.        (** the telegram of [_start_sweep] *)
Variable end_sent : bool.          (** the telegram of [__deinitialize_device] *)
Variable fuel : nat.

Definition keep_going : M (St tstate) bool :=
  x <- get_loc ;; ret (negb (ext_stop (tick x) || stopped x)).

(** The statements of one iteration after the guarded acquisition. *)
Definition tick_rest (i : tick_in) : M (St tstate) unit :=
  toggle_pid_if_necessary i ;;
  reached <- check_temp_reached i ;;
  (if reached then
     y <- get_loc ;;
     set_loc (mkT (last_temperatures y) (temperature_end y) (last_toggle y) true (tick y)
                  (sens_check_time y)) ;;
     T1 <- read (T1_safety i) ;;
     if fl_lt T1 (Fin 20) then emit (SetTempSetPoint (Fin 15)) else ret tt
   else ret tt) ;;
  y <- get_loc ;;
  set_loc (mkT (last_temperatures y) (temperature_end y) (last_toggle y) (stopped y) (S (tick y))
               (sens_check_time y)).

(** One iteration of [while not self._should_stop.is_set(): ...]. *)
Definition loop_body : M (St tstate) unit :=
  x <- get_loc ;;
  let i := world (tick x) in
  try_except (acquire_data_point (acquire i)) (fun _ => emit LogError) ;;
  tick_rest i.

Definition start_sweep : M (St tstate) unit :=
  current_temperature <- read T1_start ;;
  x <- get_loc ;;
  match sweep_time current_temperature (temperature_end x) sweep_rate with
  | None => raise ZeroDivisionError
  | Some st =>
      emit (SetTempSetPoint current_temperature) ;;
      emit (SetTempSweep (temperature_end x) st) ;;
      emit StartTempSweep ;;
      send_meassage_telegram start_sent
  end.

Definition deinitialize_device : M (St tstate) unit :=
  emit StopTempSweep ;; send_meassage_telegram end_sent.

Definition measure : M (St tstate) unit :=
  emit WriteHeader ;;
  emit (Sleep (1#2)) ;;
  start_sweep ;;
  while_ fuel keep_going loop_body ;;
  deinitialize_device.

End Run.

(** The object after [__init__]: [t0] and [c0] are the two values of
    [time()] stored in [_last_toggle] and [_sens_check_time]. *)
Definition start (temperature_end t0 c0 : Q) : St tstate :=
  mkSt [] (mkT [] temperature_end t0 false 0 c0).

End Temp.

(** ** The magnet phase machine: [SMU2ProbeHSweep2636AIvB]
    (src/measurement/smu_2636A_2probe_hSweep_IvB.py) *)
Module IvB.

Inductive State :=
| START | GOING_UP | HALTING_UP | GOING_DOWN | HALTING_DOWN
| GOING_BACK_UP | HALTING_UP2 | GOING_ZERO | DONE.

Definition state_value (s : State) : nat :=
  match s with
  | START => 0 | GOING_UP => 1 | HALTING_UP => 2 | GOING_DOWN => 3
  | HALTING_DOWN => 4 | GOING_BACK_UP => 5 | HALTING_UP2 => 6
  | GOING_ZERO => 7 | DONE => 8
  end.

Record bstate := mkB {
  state : State;
  last_field : Q;
  max_field : Q;
  stopped : bool;
  tick : nat }.

Definition set_state (x : bstate) (s : State) : bstate :=
  mkB s (last_field x) (max_field x) (stopped x) (tick x).

Definition goto (s : State) : M (St bstate) unit :=
  x <- get_loc ;; set_loc (set_state x s).

(** [_switch_states_if_necessary]; [raw] is what [self._mag.get_field()]
    returns this tick ([None]: the call raised).  After a failed call the
    local [field] is unassigned, and [if not field] reads it. *)
Definition switch_states_if_necessary (raw : option Q) : M (St bstate) unit :=
  got <- try_except (f <- read raw ;; ret (Some f))
                    (fun _ => emit LogError ;; ret None) ;;
  x <- get_loc ;;
  field <- match got with
           | None => raise UnboundLocalError
           | Some f => ret (if qzero f then last_field x else f)
           end ;;
  set_loc (mkB (state x) field (max_field x) (stopped x) (tick x)) ;;
  let max := max_field x in
  match state x with
  | START =>
      emit (SetTargetField max) ;; emit (SetSweepMode TO_SET_POINT) ;; goto GOING_UP
  | GOING_UP =>
      if qlt (Qabs (field - max)) (1 # 1000)
      then emit (Sleep 2) ;; goto HALTING_UP ;; emit (SetSweepMode HOLD)
      else ret tt
  | HALTING_UP =>
      emit (SetTargetField (- max)) ;; goto GOING_DOWN ;; emit (SetSweepMode TO_SET_POINT)
  | GOING_DOWN =>
      if qlt (Qabs (field - (- max))) (1 # 1000)
      then emit (Sleep 2) ;; goto HALTING_DOWN ;; emit (SetSweepMode HOLD)
      else ret tt
  | HALTING_DOWN =>
      emit (SetTargetField max) ;; emit (SetSweepMode TO_SET_POINT) ;; goto GOING_BACK_UP
  | GOING_BACK_UP =>
      if qlt (Qabs (field - max)) (1 # 1000)
      then emit (Sleep 2) ;; goto HALTING_UP2 ;; emit (SetSweepMode HOLD)
      else ret tt
  | HALTING_UP2 =>
      emit (SetTargetField 0) ;; emit (SetSweepMode TO_ZERO) ;; goto GOING_ZERO
  | GOING_ZERO =>
      if qlt (Qabs field) (1 # 1000)
      then emit (Sleep 2) ;; goto DONE ;; emit (SetSweepMode HOLD)
      else ret tt
  | DONE =>
      y <- get_loc ;;
      set_loc (mkB (state y) (last_field y) (max_field y) true (tick y)) ;;
      emit (SetSweepMode HOLD)
  end.

Section Run.
Variable ext_stop : nat -> bool.
Variable acq : nat -> option (list Q).     (** reads of [_acquire_data_point] *)
Variable field_read : nat -> option Q.     (** [get_field()] in the switch step *)
Variable zero_read : nat -> option Q.      (** [get_field()] while ramping to zero *)
Variable fuel : nat.

Definition keep_going : M (St bstate) bool :=
  x <- get_loc ;; ret (negb (ext_stop (tick x) || stopped x)).

Definition acquire_data_point (k : nat) : M (St bstate) unit :=
  vals <- read (acq k) ;; emit (Record vals) ;; emit EmitData.

Definition loop_body : M (St bstate) unit :=
  x <- get_loc ;;
  try_except (acquire_data_point (tick x)) (fun _ => emit LogError) ;;
  switch_states_if_necessary (field_read (tick x)) ;;
  y <- get_loc ;;
  set_loc (mkB (state y) (last_field y) (max_field y) (stopped y) (S (tick y))).

Definition main_loop : M (St bstate) unit := while_ fuel keep_going loop_body.

(** [while abs(field) >= 0.001: sleep(1); field = get_field()] *)
Fixpoint wait_zero (n : nat) (k : nat) (field : Q) : M (St bstate) unit :=
  match n with
  | O => raise OutOfFuel
  | S n' =>
      if qlt (Qabs field) (1 # 1000) then ret tt
      else emit (Sleep 1) ;; f <- read (zero_read k) ;; wait_zero n' (S k) f
  end.

Definition deinitialize_device : M (St bstate) unit :=
  emit (SetVoltage 0) ;; emit Disarm ;;
  emit (SetTargetField 0) ;; emit (SetSweepMode TO_ZERO) ;;
  field <- read (zero_read 0) ;;
  wait_zero fuel 1 field ;;
  emit (SetSweepMode HOLD).

Definition measure (max_voltage : Q) : M (St bstate) unit :=
  emit WriteHeader ;;
  emit Arm ;; emit (SetSweepMode HOLD) ;;
  emit (Sleep (1#2)) ;;
  emit (SetVoltage max_voltage) ;;
  main_loop ;;
  deinitialize_device.

End Run.

Definition start (max_field : Q) : St bstate := mkSt [] (mkB START 0 max_field false 0).

End IvB.

(** ** Predicates used by the statements *)

(** The run either ended normally with the teardown [td] as its last
    effects and no earlier [first] event, or it raised before performing
    any [first] event. *)
Definition teardown_once {X} (first : ev) (td : list ev) (r : res (St X) unit) : Prop :=
  match r with
  | Ok _ s => exists pre, trace s = pre ++ td /\ ~ In first pre
  | Raise _ s => ~ In first (trace s)
  end.

(** The effects of the first [k] completed steps of the ramp, starting at
    step number [m]. *)
Fixpoint ramp_completed (dev_read : nat -> option (Q * Q)) (traj : list Q) (k m : nat)
  : list ev :=
  match k, traj with
  | S k', v :: rest =>
      SetVoltage v
      :: match dev_read m with
         | Some (a, b) => [Record [a; b]; EmitData]
         | None => []
         end
      ++ ramp_completed dev_read rest k' (S m)
  | _, _ => []
  end.

(** The teardown [td] begins with [first] and its last step may raise:
    the run either ended normally with [td] as its last effects and no
    earlier [first] event, or it raised, having performed [first] either
    never or once, as its last effect. *)
Definition teardown_at_most_once {X} (first : ev) (td : list ev) (r : res (St X) unit) : Prop :=
  match r with
  | Ok _ s => exists pre, trace s = pre ++ td /\ ~ In first pre
  | Raise _ s => ~ In first (trace s) \/ exists pre, trace s = pre ++ [first] /\ ~ In first pre
  end.

(** The effects of the first [k] completed steps of the hysteresis sweep
    [SMU2ProbeESweep2636A._sweep_voltage], starting at step number [m]. *)
Fixpoint esweep_completed (dev_read : nat -> option (Q * Q)) (t3_read : nat -> option Q)
  (space : list Q) (k m : nat) : list ev :=
  match k, space with
  | S k', v :: rest =>
      SetVoltage v :: Sleep 15
      :: match dev_read m, t3_read m with
         | Some (a, b), Some T3 => [Record [a; b; T3]; EmitData]
         | _, _ => []
         end
      ++ esweep_completed dev_read t3_read rest k' (S m)
  | _, _ => []
  end.

(** A computation only appends to the trace, and only events satisfying [P]. *)
Definition emits_only {X A} (P : ev -> Prop) (m : M (St X) A) : Prop :=
  forall s,
    match m s with
    | Ok _ s' | Raise _ s' => exists ext, trace s' = trace s ++ ext /\ Forall P ext
    end.

(** ** [get_gpib_timeout] (src/measurement/smu_2probe_eSweep_2636A.py)

    The constants of the [gpib] module are the values of
    [timeout_const]; the thresholds of [gpib_timeout_list] are in
    seconds. *)
Module Gpib.

Inductive timeout_const :=
| TNONE | T10us | T30us | T100us | T300us | T1ms | T3ms | T10ms | T30ms
| T100ms | T300ms | T1s | T3s | T10s | T30s | T100s | T300s | T1000s.

Definition gpib_timeout_list : list (Q * timeout_const) :=
  [(0, TNONE); (10 # 1000000, T10us); (30 # 1000000, T30us);
   (100 # 1000000, T100us); (300 # 1000000, T300us); (1 # 1000, T1ms);
   (3 # 1000, T3ms); (10 # 1000, T10ms); (30 # 1000, T30ms);
   (100 # 1000, T100ms); (300 # 1000, T300ms); (1, T1s); (3, T3s);
   (10, T10s); (30, T30s); (100, T100s); (300, T300s); (1000, T1000s)].

(** [timeout <= val] on a float: false when [timeout] is NaN. *)
Definition fl_le (a b : fl) : bool :=
  match a, b with Fin x, Fin y => Qle_bool x y | _, _ => false end.

(** [for val, res in lst: if timeout <= val: return res] then
    [return gpib.T1000s]. *)
Fixpoint first_at_least (timeout : fl) (lst : list (Q * timeout_const)) : timeout_const :=
  match lst with
  | [] => T1000s
  | (val, res) :: rest => if fl_le timeout (Fin val) then res else first_at_least timeout rest
  end.

Definition get_gpib_timeout (timeout : fl) : timeout_const :=
  first_at_least timeout gpib_timeout_list.

End Gpib.

(** ** [SMU2ProbeESweep2636A._setup_voltage_space]
    (src/measurement/smu_2636A_2probe_eSweep_IvU.py and
    src/measurement/smu_2probe_eSweep_2636A.py, same code)

    [np.tile(a, loop_count)] of a one-dimensional array is [a] repeated
    [loop_count] times; the model covers [loop_count >= 0]. *)
Module ESweep.

Definition setup_voltage_space (max_voltage : Q) (number_of_points loop_count : nat) : list Q :=
  let zero_to_max := linspace 0 max_voltage number_of_points in
  let max_to_zero := linspace max_voltage 0 number_of_points in
  let zero_to_min := linspace 0 (-1 * max_voltage) number_of_points in
  let min_to_zero := linspace (-1 * max_voltage) 0 number_of_points in
  let middle_loop :=
    concat (repeat (max_to_zero ++ zero_to_min ++ min_to_zero ++ zero_to_max) loop_count) in
  zero_to_max ++ middle_loop ++ max_to_zero.

(** [SMU2ProbeESweep2636A._measure] of src/measurement/smu_2probe_eSweep_2636A.py.
    The counter [loc] is the number of completed steps; [is_set k],
    [dev_read k] ([_device.read()]) and [t3_read k] ([_temp.T3]) are the
    values at step [k]. *)
Section Run.
Variable is_set : nat -> bool.
Variable dev_read : nat -> option (Q * Q).
Variable t3_read : nat -> option Q.

Definition acquire_data_point : M (St nat) unit :=
  k <- get_loc ;;
  vi <- read (dev_read k) ;;
  T3 <- read (t3_read k) ;;
  let '(meas_voltage, meas_current) := vi in
  emit (Record [meas_voltage; meas_current; T3]) ;;
  emit EmitData.

Fixpoint sweep_voltage (voltage_space : list Q) : M (St nat) unit :=
  match voltage_space with
  | [] => ret tt
  | voltage :: rest =>
      k <- get_loc ;;
      if is_set k then emit EmitAborted
      else
        emit (SetVoltage voltage) ;;
        emit (Sleep 15) ;;
        acquire_data_point ;;
        set_loc (S k) ;;
        sweep_voltage rest
  end.

Definition measure (max_voltage : Q) (number_of_points loop_count : nat) : M (St nat) unit :=
  emit WriteHeader ;;
  emit Arm ;;
  emit (Sleep (1#2)) ;;
  sweep_voltage (setup_voltage_space max_voltage number_of_points loop_count) ;;
  emit (SetVoltage 0) ;; emit Disarm.

End Run.

End ESweep.

(** ** [SMU2ProbeHSweep2636AIvU._measure]
    (src/measurement/smu_2636A_2probe_hSweep_IvU.py)

    The field-step sweep with a retry loop around each acquisition.
    Oracles: [is_set k] the stop flag at a check made after [k] completed
    voltage steps, [mag_read p] the [p]-th reading of the settling loop,
    [zero_read k] the [k]-th reading of the teardown, [acq t] the outcome
    of the [t]-th call of [_acquire_data_point]: the values written
    (field, voltage, current, T1, T2, T3), or the class of the exception
    raised by one of its reads. *)
Module IvU.

Inductive outcome := Values (vals : list Q) | ValueErr | OtherErr.

Record iu := mkIu { done : nat; polls : nat; tries : nat }.

(** The range checks of [__init__], before [self.abort()]: every field
    within [-10, 10] and the sweep rate within [0, 0.5]. *)
Definition init_accepts (fields : list Q) (sweep_rate : Q) : bool :=
  forallb (fun field => Qle_bool (-10) field && Qle_bool field 10) fields &&
  Qle_bool 0 sweep_rate && Qle_bool sweep_rate (1 # 2).

(** [_setup_voltage_space] has the code of [SMU2ProbeHSweep2636A]. *)
Definition setup_voltage_space (max_voltage : Q) (number_of_points : nat) : list Q :=
  HSweep.setup_voltage_space max_voltage number_of_points.

Section IvU.
Variable is_set : nat -> bool.
Variable mag_read : nat -> option Q.
Variable zero_read : nat -> option Q.
Variable acq : nat -> outcome.
Variable fuel : nat.

Definition should_stop : M (St iu) bool :=
  x <- get_loc ;; ret (is_set (done x)).

(** [while True: try: self._acquire_data_point(file_handle)
    except ValueError: pass else: break].  Any other exception leaves
    the loop. *)
Fixpoint acquire_retrying (n : nat) : M (St iu) unit :=
  match n with
  | O => raise OutOfFuel
  | S n' =>
      x <- get_loc ;;
      set_loc (mkIu (done x) (polls x) (S (tries x))) ;;
      match acq (tries x) with
      | Values vals => emit (Record vals) ;; emit EmitData
      | ValueErr => acquire_retrying n'
      | OtherErr => raise DeviceError
      end
  end.

Definition step_done : M (St iu) unit :=
  x <- get_loc ;; set_loc (mkIu (S (done x)) (polls x) (tries x)).

Fixpoint sweep_voltage (space : list Q) : M (St iu) unit :=
  match space with
  | [] => ret tt
  | voltage :: rest =>
      s <- should_stop ;;
      if s then emit EmitAborted
      else
        emit (SetVoltage voltage) ;;
        acquire_retrying fuel ;;
        step_done ;;
        sweep_voltage rest
  end.

Fixpoint wait_field (n : nat) (field : Q) : M (St iu) unit :=
  match n with
  | O => raise OutOfFuel
  | S n' =>
      x <- get_loc ;;
      current_field <- read (mag_read (polls x)) ;;
      set_loc (mkIu (done x) (S (polls x)) (tries x)) ;;
      emit (Sleep 1) ;;
      if qlt (Qabs (current_field - field)) (1 # 1000) then ret tt
      else wait_field n' field
  end.

Definition goto_field_and_stabilize (field : Q) : M (St iu) unit :=
  emit (SetTargetField field) ;;
  emit (SetSweepMode TO_SET_POINT) ;;
  wait_field fuel field ;;
  emit (Sleep 10).

(** [except Exception]: every Python exception is logged; [OutOfFuel]
    is no Python exception and goes through. *)
Definition log_exception (e : exc) : M (St iu) unit :=
  match e with
  | OutOfFuel => raise OutOfFuel
  | _ => emit LogError
  end.

Fixpoint field_loop (space : list Q) (fields : list Q) : M (St iu) unit :=
  match fields with
  | [] => ret tt
  | field :: rest =>
      s <- should_stop ;;
      if s then ret tt
      else
        goto_field_and_stabilize field ;;
        try_except (sweep_voltage space) log_exception ;;
        field_loop space rest
  end.

Definition initialize_device : M (St iu) unit :=
  emit Arm ;; emit (SetSweepMode HOLD).

(** [while abs(field) >= 0.001: time.sleep(1); field = get_field()] *)
Fixpoint wait_zero (n : nat) (k : nat) (field : Q) : M (St iu) unit :=
  match n with
  | O => raise OutOfFuel
  | S n' =>
      if qlt (Qabs field) (1 # 1000) then ret tt
      else emit (Sleep 1) ;; f <- read (zero_read k) ;; wait_zero n' (S k) f
  end.

Definition deinitialize_device : M (St iu) unit :=
  emit (SetVoltage 0) ;; emit Disarm ;;
  emit (SetTargetField 0) ;; emit (SetSweepMode TO_ZERO) ;;
  field <- read (zero_read 0) ;;
  wait_zero fuel 1 field ;;
  emit (SetSweepMode HOLD).

Definition measure (max_voltage : Q) (number_of_points : nat) (fields : list Q)
  : M (St iu) unit :=
  emit WriteHeader ;;
  initialize_device ;;
  emit (Sleep (1#2)) ;;
  field_loop (setup_voltage_space max_voltage number_of_points) fields ;;
  deinitialize_device.

End IvU.

Definition start : St iu := mkSt [] (mkIu 0 0 0).

End IvU.

(** ** Projections of a trace *)

(** The fields sent to [set_target_field], in order. *)
Definition targets (tr : list ev) : list Q :=
  flat_map (fun e => match e with SetTargetField f => [f] | _ => [] end) tr.

(** The voltages sent to [set_voltage], in order. *)
Definition setpoints (tr : list ev) : list Q :=
  flat_map (fun e => match e with SetVoltage v => [v] | _ => [] end) tr.

(** The lines written to the data file, in order. *)
Definition records (tr : list ev) : list (list Q) :=
  flat_map (fun e => match e with Record vs => [vs] | _ => [] end) tr.

(** [e] is no [set_target_field] command. *)
Definition no_target (e : ev) : Prop := forall g, e <> SetTargetField g.

(** The number of targets the phase machine has sent on reaching a state:
    [max_field], [-max_field], [max_field], then [0]. *)
Definition issued (s : IvB.State) : nat :=
  match s with
  | IvB.START => 0
  | IvB.GOING_UP | IvB.HALTING_UP => 1
  | IvB.GOING_DOWN | IvB.HALTING_DOWN => 2
  | IvB.GOING_BACK_UP | IvB.HALTING_UP2 => 3
  | IvB.GOING_ZERO | IvB.DONE => 4
  end.

Definition field_plan (max_field : Q) : list Q := [max_field; - max_field; max_field; 0].

(** [k] readings of the magnet at or above 0.001 T in absolute value,
    then one below. *)
Definition settles (rd : nat -> option Q) (k : nat) : Prop :=
  (forall i, (i < k)%nat -> exists g, rd i = Some g /\ qlt (Qabs g) (1 # 1000) = false) /\
  (exists g, rd k = Some g /\ qlt (Qabs g) (1 # 1000) = true).

(** An invariant of the state kept by every outcome of a computation,
    normal or exceptional. *)
Definition preserves {S A} (I : S -> Prop) (m : M S A) : Prop :=
  forall s, I s -> match m s with Ok _ s' | Raise _ s' => I s' end.

(** What the temperature-sweep run never changes: the window stays within
    eleven samples, [_last_toggle] and [_temperature_end] keep their
    initial values. *)
Definition temp_inv (te t0 : Q) (x : Temp.tstate) : Prop :=
  (length (Temp.last_temperatures x) <= 11)%nat /\
  Temp.last_toggle x = t0 /\ Temp.temperature_end x = te.

(** The targets sent so far by the phase machine are the first ones of
    its plan, as many as its state says. *)
Definition ivb_plan_inv (m : Q) (s : St IvB.bstate) : Prop :=
  targets (trace s) = firstn (issued (IvB.state (loc s))) (field_plan m) /\
  IvB.max_field (loc s) = m.

(** ** Generic lemmas on the monad *)

Section Emits.
Context {X : Type} (P : ev -> Prop).

Lemma eo_ret {A} (a : A) : emits_only (X:=X) P (ret a).
Proof. intro s. exists []. rewrite app_nil_r. auto. Qed.

Lemma eo_raise {A} e : emits_only (X:=X) (A:=A) P (raise e).
Proof. intro s. exists []. rewrite app_nil_r. auto. Qed.

Lemma eo_read {A} (o : option A) : emits_only (X:=X) P (read o).
Proof. destruct o; [apply eo_ret | apply eo_raise]. Qed.

Lemma eo_emit e : P e -> emits_only (X:=X) P (emit e).
Proof. intros He s. exists [e]. simpl. auto. Qed.

Lemma eo_get_loc : emits_only (X:=X) P get_loc.
Proof. intro s. exists []. rewrite app_nil_r. simpl. auto. Qed.

Lemma eo_set_loc x : emits_only (X:=X) P (set_loc x).
Proof. intro s. exists []. rewrite app_nil_r. simpl. auto. Qed.

Lemma eo_bind {A B} (m : M (St X) A) (k : A -> M (St X) B) :
  emits_only P m -> (forall a, emits_only P (k a)) -> emits_only P (bind m k).
Proof.
  intros Hm Hk s. unfold bind. specialize (Hm s).
  destruct (m s) as [a s1 | e s1]; destruct Hm as [e1 [T1 F1]]; [ | eauto].
  specialize (Hk a s1). destruct (k a s1) as [b s2 | e s2];
    destruct Hk as [e2 [T2 F2]]; exists (e1 ++ e2);
    rewrite T2, T1, app_assoc; split; auto; apply Forall_app; auto.
Qed.

Lemma eo_try {A} (m : M (St X) A) (h : exc -> M (St X) A) :
  emits_only P m -> (forall e, emits_only P (h e)) -> emits_only P (try_except m h).
Proof.
  intros Hm Hh s. unfold try_except. specialize (Hm s).
  destruct (m s) as [a s1 | e s1]; destruct Hm as [e1 [T1 F1]]; [eauto | ].
  specialize (Hh e s1). destruct (h e s1) as [b s2 | e' s2];
    destruct Hh as [e2 [T2 F2]]; exists (e1 ++ e2);
    rewrite T2, T1, app_assoc; split; auto; apply Forall_app; auto.
Qed.

Lemma eo_while n (c : M (St X) bool) (b : M (St X) unit) :
  emits_only P c -> emits_only P b -> emits_only P (while_ n c b).
Proof.
  intros Hc Hb. induction n as [|n IH]; simpl.
  - apply eo_raise.
  - apply eo_bind; auto. intros [|]; [apply eo_bind; auto | apply eo_ret].
Qed.

End Emits.

Ltac eo :=
  repeat match goal with
  | |- emits_only _ (bind _ _) => apply eo_bind; [ | intro ]
  | |- emits_only _ (try_except _ _) => apply eo_try; [ | intro ]
  | |- emits_only _ (while_ _ _ _) => apply eo_while
  | |- emits_only _ (emit _) => apply eo_emit; discriminate
  | |- emits_only _ (ret _) => apply eo_ret
  | |- emits_only _ (raise _) => apply eo_raise
  | |- emits_only _ (read _) => apply eo_read
  | |- emits_only _ get_loc => apply eo_get_loc
  | |- emits_only _ (set_loc _) => apply eo_set_loc
  | |- emits_only _ (if ?b then _ else _) => destruct b
  | |- emits_only _ (match ?x with _ => _ end) => destruct x
  | |- emits_only _ (let _ := _ in _) => cbv zeta
  end.

Lemma Forall_not_In (e : ev) l : Forall (fun x => x <> e) l -> ~ In e l.
Proof. intros H Hin. rewrite Forall_forall in H. exact (H e Hin eq_refl). Qed.

Lemma ramp_loop_no_disarm is_set dev_read traj :
  emits_only (X:=nat) (fun e => e <> Disarm) (Ramp.ramp_loop is_set dev_read traj).
Proof. induction traj; simpl; eo; auto. Qed.

Lemma temp_while_no_stop ext world fuel :
  emits_only (fun e => e <> StopTempSweep)
    (while_ fuel (Temp.keep_going ext) (Temp.loop_body world)).
Proof.
  unfold Temp.keep_going, Temp.loop_body, Temp.tick_rest,
    Temp.acquire_data_point, Temp.check_sensitivitiy, Temp.toggle_pid_if_necessary,
    Temp.check_temp_reached, Temp.check_window, polyfit1.
  eo.
Qed.

Lemma teardown_bind {X A} first td (p : M (St X) A) (k : A -> M (St X) unit) s :
  emits_only (fun e => e <> first) p -> ~ In first (trace s) ->
  (forall a s', ~ In first (trace s') -> teardown_once first td (k a s')) ->
  teardown_once first td (bind p k s).
Proof.
  intros Hp Hs Hk. unfold bind. specialize (Hp s).
  destruct (p s) as [a s1 | e s1]; destruct Hp as [ext [T F]];
    [apply Hk | simpl]; rewrite T; intro Hin; apply in_app_or in Hin;
    destruct Hin as [Hin | Hin]; [exact (Hs Hin) | exact (Forall_not_In _ _ F Hin)
                                 | exact (Hs Hin) | exact (Forall_not_In _ _ F Hin)].
Qed.

Lemma teardown_last {X} first e1 e2 (s : St X) :
  ~ In first (trace s) -> teardown_once first [e1; e2] ((emit e1 ;; emit e2) s).
Proof. intro H. exists (trace s). simpl. rewrite <- app_assoc. auto. Qed.

Lemma ramp_loop_cancel is_set dev_read traj : forall (k m : nat) tr,
  (k < length traj)%nat ->
  (forall j, (j < k)%nat -> is_set (m + j)%nat = false /\ dev_read (m + j)%nat <> None) ->
  is_set (m + k)%nat = true ->
  Ramp.ramp_loop is_set dev_read traj (mkSt tr m) =
    Ok tt (mkSt (tr ++ ramp_completed dev_read traj k m ++ [EmitAborted]) (m + k)%nat).
Proof.
  induction traj as [|v rest IH]; intros k m tr Hk Hpre Hset; simpl in Hk; [lia|].
  destruct k as [|k].
  - rewrite Nat.add_0_r in Hset |- *. simpl. unfold bind, get_loc, get, ret. simpl.
    rewrite Hset. reflexivity.
  - destruct (Hpre 0%nat ltac:(lia)) as [Hs0 Hr0]. rewrite Nat.add_0_r in Hs0, Hr0.
    destruct (dev_read m) as [[a b]|] eqn:Hr; [|congruence].
    simpl. unfold bind, get_loc, get, ret, emit, modify, set_loc, read. simpl.
    rewrite Hs0, Hr. simpl.
    rewrite (IH k (S m)); [ | lia | | ].
    + replace (S m + k)%nat with (m + S k)%nat by lia.
      rewrite <- !app_assoc. reflexivity.
    + intros j Hj. replace (S m + j)%nat with (m + S j)%nat by lia. apply Hpre. lia.
    + replace (S m + k)%nat with (m + S k)%nat by lia. exact Hset.
Qed.

Lemma ramp_loop_fail is_set dev_read traj : forall (k m : nat) tr,
  (k < length traj)%nat ->
  (forall j, (j < k)%nat -> is_set (m + j)%nat = false /\ dev_read (m + j)%nat <> None) ->
  is_set (m + k)%nat = false -> dev_read (m + k)%nat = None ->
  Ramp.ramp_loop is_set dev_read traj (mkSt tr m) =
    Raise DeviceError
      (mkSt (tr ++ ramp_completed dev_read traj k m ++ [SetVoltage (nth k traj 0)]) (m + k)%nat).
Proof.
  induction traj as [|v rest IH]; intros k m tr Hk Hpre Hset Hrd; simpl in Hk; [lia|].
  destruct k as [|k].
  - rewrite Nat.add_0_r in Hset, Hrd |- *. simpl. unfold bind, get_loc, get, ret, emit, modify, read.
    simpl. rewrite Hset, Hrd. reflexivity.
  - destruct (Hpre 0%nat ltac:(lia)) as [Hs0 Hr0]. rewrite Nat.add_0_r in Hs0, Hr0.
    destruct (dev_read m) as [[a b]|] eqn:Hr; [|congruence].
    simpl. unfold bind, get_loc, get, ret, emit, modify, set_loc, read. simpl.
    rewrite Hs0, Hr. simpl.
    rewrite (IH k (S m)); [ | lia | | | ].
    + replace (S m + k)%nat with (m + S k)%nat by lia.
      rewrite <- !app_assoc. reflexivity.
    + intros j Hj. replace (S m + j)%nat with (m + S j)%nat by lia. apply Hpre. lia.
    + replace (S m + k)%nat with (m + S k)%nat by lia. exact Hset.
    + replace (S m + k)%nat with (m + S k)%nat by lia. exact Hrd.
Qed.

Lemma esweep_sweep_cancel is_set dev_read t3_read space : forall (k m : nat) tr,
  (k < length space)%nat ->
  (forall j, (j < k)%nat ->
     is_set (m + j)%nat = false /\ dev_read (m + j)%nat <> None /\ t3_read (m + j)%nat <> None) ->
  is_set (m + k)%nat = true ->
  ESweep.sweep_voltage is_set dev_read t3_read space (mkSt tr m) =
    Ok tt (mkSt (tr ++ esweep_completed dev_read t3_read space k m ++ [EmitAborted]) (m + k)%nat).
Proof.
  induction space as [|v rest IH]; intros k m tr Hk Hpre Hset; simpl in Hk; [lia|].
  destruct k as [|k].
  - rewrite Nat.add_0_r in Hset |- *. simpl. unfold bind, get_loc, get, ret. simpl.
    rewrite Hset. reflexivity.
  - destruct (Hpre 0%nat ltac:(lia)) as [Hs0 [Hr0 Ht0]]. rewrite Nat.add_0_r in Hs0, Hr0, Ht0.
    destruct (dev_read m) as [[a b]|] eqn:Hr; [|congruence].
    destruct (t3_read m) as [T3|] eqn:Ht; [|congruence].
    simpl. unfold ESweep.acquire_data_point, bind, get_loc, get, ret, emit, modify, set_loc, read.
    simpl. rewrite Hs0. simpl. rewrite Hr. simpl. rewrite Ht. simpl.
    rewrite (IH k (S m)); [ | lia | | ].
    + replace (S m + k)%nat with (m + S k)%nat by lia.
      rewrite <- !app_assoc. reflexivity.
    + intros j Hj. replace (S m + j)%nat with (m + S j)%nat by lia. apply Hpre. lia.
    + replace (S m + k)%nat with (m + S k)%nat by lia. exact Hset.
Qed.

Lemma teardown_amo_bind {X A} first td (p : M (St X) A) (k : A -> M (St X) unit) s :
  emits_only (fun e => e <> first) p -> ~ In first (trace s) ->
  (forall a s', ~ In first (trace s') -> teardown_at_most_once first td (k a s')) ->
  teardown_at_most_once first td (bind p k s).
Proof.
  intros Hp Hs Hk. unfold bind. specialize (Hp s).
  destruct (p s) as [a s1 | e s1]; destruct Hp as [ext [T F]];
    [apply Hk | simpl; left]; rewrite T; intro Hin; apply in_app_or in Hin;
    destruct Hin as [Hin | Hin]; [exact (Hs Hin) | exact (Forall_not_In _ _ F Hin)
                                 | exact (Hs Hin) | exact (Forall_not_In _ _ F Hin)].
Qed.

Lemma temp_teardown_last sent s :
  ~ In StopTempSweep (trace s) ->
  teardown_at_most_once StopTempSweep [StopTempSweep; Notify]
    ((emit StopTempSweep ;; Temp.send_meassage_telegram sent) s).
Proof.
  intro H. destruct sent; simpl.
  - exists (trace s). rewrite <- app_assoc. auto.
  - right. exists (trace s). auto.
Qed.

(** * The claims *)

(** C1 (counterexample).  In the voltage ramp of [SMU2Probe2636A] a read
    that raises during the loop leaves [_measure] by the exception: the
    device is never disarmed. *)
Lemma C1_read_failure_skips_teardown :
  exists s, Ramp.measure (fun _ => false) (fun _ => None) [0; 1] Ramp.start
              = Raise DeviceError s /\ ~ In Disarm (trace s).
Proof. eexists. split; [reflexivity | simpl; intuition discriminate]. Qed.

(** C1 (amended).  When the loop of [_measure] exits normally (trajectory
    exhausted, temperature reached, cancellation), the teardown is the last
    thing the run does and it happens exactly once: voltage to zero and
    disarm for the ramp of [SMU2Probe2636A], stop of the temperature sweep
    and the final telegram for [SRS830RvTBlue].  The telegram reads the
    instruments and sends a message, and may raise after the stop: the
    sweep is then stopped once and the run raises.  An exception raised
    before the teardown leaves [_measure] with no teardown at all; in
    particular a sweep rate of 0, which the constructor accepts, makes
    [_start_sweep] divide by zero before the sweep is started. *)
Theorem C1_teardown_once_on_normal_exit :
  (forall is_set dev_read traj,
     teardown_once Disarm [SetVoltage 0; Disarm]
       (Ramp.measure is_set dev_read traj Ramp.start)) /\
  (forall ext world T1 sweep_rate start_sent end_sent fuel temperature_end t0 c0,
     teardown_at_most_once StopTempSweep [StopTempSweep; Notify]
       (Temp.measure ext world T1 sweep_rate start_sent end_sent fuel
          (Temp.start temperature_end t0 c0))) /\
  (forall ext world T1 start_sent end_sent fuel temperature_end t0 c0,
     0 <= temperature_end -> temperature_end <= 295 ->
     srs_init_accepts temperature_end 0 = true /\
     exists s, Temp.measure ext world (Some T1) 0 start_sent end_sent fuel
                 (Temp.start temperature_end t0 c0) = Raise ZeroDivisionError s
               /\ ~ In StopTempSweep (trace s)).
Proof.
  split; [| split].
  - intros. unfold Ramp.measure, Ramp.initialize_device, Ramp.deinitialize_device.
    apply teardown_bind; [eo; auto | simpl; auto | intros ? ? ?].
    apply teardown_bind; [eo; auto | assumption | intros ? ? ?].
    apply teardown_bind; [eo; auto | assumption | intros ? ? ?].
    apply teardown_bind; [apply ramp_loop_no_disarm | assumption | intros ? ? ?].
    apply teardown_last; assumption.
  - intros. unfold Temp.measure, Temp.start_sweep, Temp.send_meassage_telegram at 1,
      Temp.deinitialize_device.
    apply teardown_amo_bind; [eo; auto | simpl; auto | intros ? ? ?].
    apply teardown_amo_bind; [eo; auto | assumption | intros ? ? ?].
    apply teardown_amo_bind; [eo; auto | assumption | intros ? ? ?].
    apply teardown_amo_bind; [apply temp_while_no_stop | assumption | intros ? ? ?].
    apply temp_teardown_last; assumption.
  - intros ext world T1 start_sent end_sent fuel te t0 c0 H0 H1. split.
    + unfold srs_init_accepts. apply Qle_bool_iff in H0. apply Qle_bool_iff in H1.
      rewrite H0, H1. reflexivity.
    + eexists. split; [reflexivity | simpl; intuition discriminate].
Qed.

(** C1 (witness).  The amended theorem at a concrete ramp that is
    cancelled after one step, and at a temperature sweep with rate 0. *)
Lemma C1_teardown_witness :
  Ramp.measure (fun k => Nat.leb 1 k) (fun _ => Some (0, 0)) [0; 1] Ramp.start
    = Ok tt (mkSt [WriteHeader; Arm; Sleep (1#2); SetVoltage 0; Record [0; 0]; EmitData;
                   EmitAborted; SetVoltage 0; Disarm] 1%nat)
  /\ teardown_once Disarm [SetVoltage 0; Disarm]
       (Ramp.measure (fun k => Nat.leb 1 k) (fun _ => Some (0, 0)) [0; 1] Ramp.start)
  /\ srs_init_accepts 2 0 = true
  /\ exists s, Temp.measure (fun _ => false)
                 (fun _ => Temp.mkTick (Temp.mkAcq None None None None 0 0 false)
                             None 0 None None None None)
                 (Some (Fin 300)) 0 true true 5 (Temp.start 2 0 0) = Raise ZeroDivisionError s
               /\ ~ In StopTempSweep (trace s).
Proof.
  split; [reflexivity |]. split; [exact (proj1 C1_teardown_once_on_normal_exit _ _ _) |].
  assert (H0 : 0 <= 2) by (unfold Qle; simpl; lia).
  assert (H1 : 2 <= 295) by (unfold Qle; simpl; lia).
  exact (proj2 (proj2 C1_teardown_once_on_normal_exit) (fun _ => false)
           (fun _ => Temp.mkTick (Temp.mkAcq None None None None 0 0 false)
                       None 0 None None None None)
           (Fin 300) true true 5%nat 2 0 0 H0 H1).
Defined.

(** C2 (counterexample).  In the field-step sweep of
    [SMU2ProbeHSweep2636AIvU] (the importable field-step sweep; the loop
    over the fields is that of [SMU2ProbeHSweep2636A]) the flag is also
    checked before each field, and there a set flag only [break]s.  Here
    the voltage space is [0; 1] and the flag is set once the two steps of
    the first of two fields are done: the run stops after 2 of its 4
    steps, with no 'aborted' notification. *)
Lemma C2_field_check_emits_no_abort :
  exists s,
    IvU.measure (fun k => Nat.leb 2 k) (fun _ => Some 1) (fun _ => Some 0)
      (fun _ => IvU.Values [1; 0; 1]) 5 1 1%nat [1; 2] IvU.start = Ok tt s
    /\ ~ In EmitAborted (trace s)
    /\ records (trace s) = [[1; 0; 1]; [1; 0; 1]]
    /\ setpoints (trace s) = [0; 1; 0].
Proof.
  eexists. split; [vm_compute; reflexivity |].
  split; [vm_compute; intuition discriminate | split; vm_compute; reflexivity].
Qed.

(** C2 (amended).  In the voltage ramp of [SMU2Probe2636A] and in the
    hysteresis sweep of [SMU2ProbeESweep2636A] the flag is checked before
    each step: when it is first seen set after [k] of the [n] steps
    ([k < n]), the run has applied exactly the first [k] set-points and
    written their [k] records, emits 'aborted' once, and then tears down.
    In the field-step sweep a flag seen at the per-field check ends the
    field loop with no further effect and no 'aborted' notification. *)
Theorem C2_ramp_cancellation :
  (forall is_set dev_read traj (k : nat),
     (k < length traj)%nat ->
     (forall j, (j < k)%nat -> is_set j = false /\ dev_read j <> None) ->
     is_set k = true ->
     Ramp.measure is_set dev_read traj Ramp.start =
       Ok tt (mkSt ([WriteHeader; Arm; Sleep (1#2)] ++ ramp_completed dev_read traj k 0
                    ++ [EmitAborted; SetVoltage 0; Disarm]) k)) /\
  (forall is_set dev_read t3_read max_voltage n loop_count (k : nat),
     (k < length (ESweep.setup_voltage_space max_voltage n loop_count))%nat ->
     (forall j, (j < k)%nat -> is_set j = false /\ dev_read j <> None /\ t3_read j <> None) ->
     is_set k = true ->
     ESweep.measure is_set dev_read t3_read max_voltage n loop_count (mkSt [] 0%nat) =
       Ok tt (mkSt ([WriteHeader; Arm; Sleep (1#2)]
                    ++ esweep_completed dev_read t3_read
                         (ESweep.setup_voltage_space max_voltage n loop_count) k 0
                    ++ [EmitAborted; SetVoltage 0; Disarm]) k)) /\
  (forall is_set mag_read acq fuel space fields s,
     fields <> [] -> is_set (IvU.done (loc s)) = true ->
     IvU.field_loop is_set mag_read acq fuel space fields s = Ok tt s).
Proof.
  split; [| split].
  - intros is_set dev_read traj k Hk Hpre Hset.
    unfold Ramp.measure, Ramp.initialize_device, Ramp.deinitialize_device.
    unfold bind at 1 2 3. simpl.
    unfold bind at 1.
    rewrite (ramp_loop_cancel is_set dev_read traj k 0 _ Hk); [ | exact Hpre | exact Hset].
    unfold bind, emit, modify. simpl. rewrite <- !app_assoc. reflexivity.
  - intros is_set dev_read t3_read mv n lc k Hk Hpre Hset.
    unfold ESweep.measure.
    unfold bind at 1 2 3. simpl.
    unfold bind at 1.
    rewrite (esweep_sweep_cancel is_set dev_read t3_read _ k 0 _ Hk); [ | exact Hpre | exact Hset].
    unfold bind, emit, modify. simpl. rewrite <- !app_assoc. reflexivity.
  - intros is_set mag_read acq fuel space [|f rest] s Hne Hset; [congruence|].
    simpl. unfold bind, IvU.should_stop, get_loc, get, ret. simpl. rewrite Hset. reflexivity.
Qed.

(** C2 (witness).  A three-point ramp cancelled after one step, and a
    hysteresis sweep cancelled after two. *)
Lemma C2_ramp_cancellation_witness :
  (1 < length [0; 1; 2])%nat /\
  Ramp.measure (fun k => Nat.leb 1 k) (fun _ => Some (1, 2)) [0; 1; 2] Ramp.start =
    Ok tt (mkSt ([WriteHeader; Arm; Sleep (1#2)]
                 ++ ramp_completed (fun _ => Some (1, 2)) [0; 1; 2] 1 0
                 ++ [EmitAborted; SetVoltage 0; Disarm]) 1%nat) /\
  ESweep.measure (fun k => Nat.leb 2 k) (fun _ => Some (1, 2)) (fun _ => Some 3) 1 2 1
    (mkSt [] 0%nat) =
    Ok tt (mkSt ([WriteHeader; Arm; Sleep (1#2)]
                 ++ esweep_completed (fun _ => Some (1, 2)) (fun _ => Some 3)
                      (ESweep.setup_voltage_space 1 2 1) 2 0
                 ++ [EmitAborted; SetVoltage 0; Disarm]) 2%nat) /\
  IvU.field_loop (fun _ => true) (fun _ => None) (fun _ => IvU.OtherErr) 0 [0] [1] IvU.start
    = Ok tt IvU.start.
Proof.
  split; [simpl; lia | split; [| split]].
  - apply (proj1 C2_ramp_cancellation); [simpl; lia | | reflexivity].
    intros j Hj. destruct j; [split; [reflexivity | discriminate] | lia].
  - apply (proj1 (proj2 C2_ramp_cancellation)); [vm_compute; lia | | reflexivity].
    intros j Hj. destruct j as [|[|j]]; [| | lia];
      (split; [reflexivity | split; discriminate]).
  - apply (proj2 (proj2 C2_ramp_cancellation)); [discriminate | reflexivity].
Defined.

(** C3 (counterexample).  In the voltage ramp of [SMU2Probe2636A] a single
    failing read ends the run: the exception leaves [_measure] and the
    second set-point is never applied. *)
Lemma C3_ramp_single_failure_aborts :
  exists s,
    Ramp.measure (fun _ => false)
      (fun k => match k with O => None | _ => Some (1, 1) end) [0; 1] Ramp.start
      = Raise DeviceError s /\ ~ In (SetVoltage 1) (trace s).
Proof. eexists. split; [reflexivity | simpl; intuition discriminate]. Qed.

(** C3 (amended).  In the tick loops of the temperature sweep
    ([SRS830RvTBlue]) and of the field sweep ([SMU2ProbeHSweep2636AIvB]),
    a failure anywhere in [_acquire_data_point] (a read, or for the
    temperature sweep the division by [slvl] or the sensitivity check
    after the line is written) is caught: a timestamped error line is
    logged, the effects done before the failure stay, and the tick goes on
    with its remaining statements exactly as after a successful
    acquisition.  In the voltage ramp of [SMU2Probe2636A] there is no such
    handler: a failing read at any step [k] propagates out of [_measure]
    right after the [k+1]-th set-point, and the run ends without
    teardown. *)
Theorem C3_tick_failure_logged_and_continued :
  (forall world s,
     let i := world (Temp.tick (loc s)) in
     match Temp.acquire_data_point (Temp.acquire i) s with
     | Ok _ s' => Temp.loop_body world s = Temp.tick_rest i s'
     | Raise _ s' => Temp.loop_body world s = Temp.tick_rest i (mkSt (trace s' ++ [LogError]) (loc s'))
     end) /\
  (forall acq field_read s,
     let k := IvB.tick (loc s) in
     let rest := (IvB.switch_states_if_necessary (field_read k) ;;
                  y <- get_loc ;;
                  set_loc (IvB.mkB (IvB.state y) (IvB.last_field y) (IvB.max_field y)
                                   (IvB.stopped y) (S (IvB.tick y)))) in
     match IvB.acquire_data_point acq k s with
     | Ok _ s' => IvB.loop_body acq field_read s = rest s'
     | Raise _ s' => IvB.loop_body acq field_read s = rest (mkSt (trace s' ++ [LogError]) (loc s'))
     end) /\
  (forall is_set dev_read traj (k : nat),
     (k < length traj)%nat ->
     (forall j, (j < k)%nat -> is_set j = false /\ dev_read j <> None) ->
     is_set k = false -> dev_read k = None ->
     Ramp.measure is_set dev_read traj Ramp.start =
       Raise DeviceError (mkSt ([WriteHeader; Arm; Sleep (1#2)] ++ ramp_completed dev_read traj k 0
                                ++ [SetVoltage (nth k traj 0)]) k)).
Proof.
  split; [| split].
  - intros world [tr x]. cbv zeta. simpl.
    change (Temp.loop_body world (mkSt tr x)) with
      ((try_except (Temp.acquire_data_point (Temp.acquire (world (Temp.tick x))))
                   (fun _ => emit LogError) ;;
        Temp.tick_rest (world (Temp.tick x))) (mkSt tr x)).
    unfold bind, try_except.
    destruct (Temp.acquire_data_point (Temp.acquire (world (Temp.tick x))) (mkSt tr x));
      reflexivity.
  - intros acq fr [tr x]. cbv zeta. simpl.
    change (IvB.loop_body acq fr (mkSt tr x)) with
      ((try_except (IvB.acquire_data_point acq (IvB.tick x)) (fun _ => emit LogError) ;;
        IvB.switch_states_if_necessary (fr (IvB.tick x)) ;;
        y <- get_loc ;;
        set_loc (IvB.mkB (IvB.state y) (IvB.last_field y) (IvB.max_field y)
                         (IvB.stopped y) (S (IvB.tick y)))) (mkSt tr x)).
    unfold bind, try_except.
    destruct (IvB.acquire_data_point acq (IvB.tick x) (mkSt tr x)); reflexivity.
  - intros is_set dev_read traj k Hk Hpre Hset Hrd.
    unfold Ramp.measure, Ramp.initialize_device.
    unfold bind at 1 2 3. simpl.
    unfold bind at 1.
    rewrite (ramp_loop_fail is_set dev_read traj k 0 _ Hk); [reflexivity | exact Hpre | exact Hset | exact Hrd].
Qed.

(** C3 (witness).  A sample of the temperature sweep whose [slvl] reads
    as 0: the line is written, the division raises, the failure is logged
    and the tick goes on.  And a ramp whose second read fails. *)
Lemma C3_tick_failure_witness :
  Temp.loop_body
    (fun _ => Temp.mkTick (Temp.mkAcq (Some (1, 0, 1, 0)) (Some 26%Z) (Some (5, 5, 5)) (Some 0)
                             0 0 true) None 0 None None None None) (Temp.start 5 0 0)
  = Temp.tick_rest (Temp.mkTick (Temp.mkAcq (Some (1, 0, 1, 0)) (Some 26%Z) (Some (5, 5, 5))
                                  (Some 0) 0 0 true) None 0 None None None None)
      (mkSt [Record [1; 0; 1; 0; 26; 5; 5; 5]; LogError] (loc (Temp.start 5 0 0))) /\
  Ramp.measure (fun _ => false) (fun k => match k with O => Some (1, 2) | _ => None end)
    [0; 1; 2] Ramp.start =
    Raise DeviceError (mkSt [WriteHeader; Arm; Sleep (1#2); SetVoltage 0; Record [1; 2]; EmitData;
                             SetVoltage 1] 1%nat).
Proof.
  split.
  - exact (proj1 C3_tick_failure_logged_and_continued
             (fun _ => Temp.mkTick (Temp.mkAcq (Some (1, 0, 1, 0)) (Some 26%Z) (Some (5, 5, 5))
                                      (Some 0) 0 0 true) None 0 None None None None)
             (Temp.start 5 0 0)).
  - apply (proj2 (proj2 C3_tick_failure_logged_and_continued) (fun _ => false)
             (fun k => match k with O => Some (1, 2) | _ => None end) [0; 1; 2] 1%nat);
      [simpl; lia | | reflexivity | reflexivity].
    intros j Hj. destruct j; [split; [reflexivity | discriminate] | lia].
Defined.

(** ** The convergence detector *)

Lemma sum_q_repeat c m : sum_q (repeat c m) == inject_Z (Z.of_nat m) * c.
Proof.
  induction m as [|m IH]; [simpl; ring|].
  cbn [repeat sum_q]. rewrite IH, Nat2Z.inj_succ, <- Z.add_1_r, inject_Z_plus. ring.
Qed.

Lemma sum_xy_repeat c m : forall i,
  sum_xy i (repeat c m) == c * sum_q (map (fun j => inject_Z (Z.of_nat j)) (seq i m)).
Proof.
  induction m as [|m IH]; intro i; simpl; [ring|].
  rewrite IH. ring.
Qed.

(** The fitted slope of a constant series is zero. *)
Lemma ls_slope_repeat c m : ls_slope (repeat c m) == 0.
Proof.
  unfold ls_slope, arange. cbv zeta. rewrite repeat_length.
  rewrite sum_xy_repeat, sum_q_repeat. unfold Qdiv. ring.
Qed.

Lemma qlt_stable_of_zero r : r == 0 -> qlt (Qabs r) Temp.stability_rate = true.
Proof.
  intro Hr. unfold qlt. destruct (Qle_bool Temp.stability_rate (Qabs r)) eqn:E; [|reflexivity].
  apply Qle_bool_iff in E. pose proof (Qabs_wd r 0 Hr) as Ha.
  pose proof (Qle_trans _ _ _ E (proj2 (Qle_lteq _ _) (or_intror Ha))) as C.
  vm_compute in C. exfalso. apply C. reflexivity.
Qed.

(** The window branch of [_check_temp_reached], once the window holds
    [maximal_list_len] samples or more. *)
Lemma check_window_full i tr x T3 :
  Temp.T3_first i = Some T3 ->
  (Temp.maximal_list_len <= length (Temp.last_temperatures x))%nat ->
  Temp.check_window i (mkSt tr x) =
    let w := lastn Temp.maximal_list_len (Temp.last_temperatures x) ++ [T3] in
    Ok (fl_lt (fl_abs (polyfit_slope w)) (Fin Temp.stability_rate)) (mkSt tr (Temp.set_window x w)).
Proof.
  intros H3 Hlen. destruct x as [w e t0 st tk c0]. simpl in Hlen.
  unfold Temp.check_window, try_except, bind, get_loc, get, ret, set_loc, modify. simpl.
  rewrite H3. simpl.
  replace (Nat.ltb (length w) Temp.maximal_list_len) with false
    by (symmetry; apply Nat.ltb_ge; exact Hlen).
  reflexivity.
Qed.

Lemma check_window_short i tr x T3 :
  Temp.T3_first i = Some T3 ->
  (length (Temp.last_temperatures x) < Temp.maximal_list_len)%nat ->
  Temp.check_window i (mkSt tr x) =
    Ok false (mkSt tr (Temp.set_window x (Temp.last_temperatures x ++ [T3]))).
Proof.
  intros H3 Hlen. destruct x as [w e t0 st tk c0]. simpl in Hlen.
  unfold Temp.check_window, try_except, bind, get_loc, get, ret, set_loc, modify. simpl.
  rewrite H3. simpl.
  replace (Nat.ltb (length w) Temp.maximal_list_len) with true
    by (symmetry; apply Nat.ltb_lt; exact Hlen).
  reflexivity.
Qed.

(** The fast-path rejection of [SRS830RvTBlue._check_temp_reached], on
    both sides of the target. *)
Lemma srs_fast_path_rejects i s T1 :
  Temp.T1_check i = Some T1 ->
  fl_gt (fl_abs (fl_sub T1 (Fin (Temp.temperature_end (loc s))))) (Fin 1) = true ->
  Temp.check_temp_reached i s = Ok false s.
Proof.
  intros H1 Hgt. destruct s as [tr x].
  unfold Temp.check_temp_reached, bind, get_loc, get, ret. simpl in *.
  rewrite H1. simpl. rewrite Hgt. reflexivity.
Qed.

(** C4 (code_bug).  [maximal_list_len = 10] is meant as the capacity of
    [_last_temperatures], but the code truncates to the last 10 samples
    before appending: eleven ticks near the target leave eleven samples
    in the window. *)
Theorem C4_window_holds_eleven :
  match Temp.measure (fun _ => false)
          (fun _ => Temp.mkTick (Temp.mkAcq (Some (1, 0, 1, 0)) (Some 26%Z) (Some (5, 5, 5))
                                            (Some 1) 0 0 true)
                                (Some (Fin 5)) 0 (Some (Fin 5)) (Some (Fin 5))
                                None (Some (Fin 5)))
          (Some (Fin 5)) 1 true true 20 (Temp.start 5 0 0) with
  | Ok _ s => length (Temp.last_temperatures (loc s)) = 11%nat
  | Raise _ _ => False
  end.
Proof. vm_compute. reflexivity. Qed.

(** C5 (code_bug).  [SMU2ProbeIvTBlue._check_temp_reached] tests
    [(T1 - temperature_end) > 1.0] without the absolute value of its
    sibling [SRS830RvTBlue]: a reading 5 K below the target is not
    rejected and its T3 is appended to the window. *)
Theorem C5_ivt_below_target_appends :
  Temp.check_temp_reached_ivt
    (Temp.mkTick (Temp.mkAcq None None None None 0 0 false) None 0 (Some (Fin 5)) (Some (Fin 5))
                 None None)
    (Temp.start 10 0 0)
  = Ok false (mkSt [] (Temp.mkT [Fin 5] 10 0 false 0 0)).
Proof. reflexivity. Qed.

(** C6.  Once the window holds its ten samples, a call near the target
    fits a line to the window (last ten samples and the new one, abscissae
    0, 1, ...) and reports 'reached' exactly when the absolute fitted slope
    is below [0.1/120]; for a constant window it reports 'reached'. *)
Theorem C6_fit_decides_reached i s T1 T3 ys :
  Temp.T1_check i = Some T1 ->
  fl_gt (fl_abs (fl_sub T1 (Fin (Temp.temperature_end (loc s))))) (Fin 1) = false ->
  Temp.T3_first i = Some T3 ->
  (Temp.maximal_list_len <= length (Temp.last_temperatures (loc s)))%nat ->
  finite_all (lastn Temp.maximal_list_len (Temp.last_temperatures (loc s)) ++ [T3]) = Some ys ->
  Temp.check_temp_reached i s =
    Ok (qlt (Qabs (ls_slope ys)) Temp.stability_rate)
       (mkSt (trace s) (Temp.set_window (loc s)
          (lastn Temp.maximal_list_len (Temp.last_temperatures (loc s)) ++ [T3])))
  /\ (forall c, ys = repeat c (length ys) ->
        qlt (Qabs (ls_slope ys)) Temp.stability_rate = true).
Proof.
  intros H1 Hnear H3 Hlen Hfin. split.
  - destruct s as [tr x]. simpl in *.
    unfold Temp.check_temp_reached, bind at 1 2, get_loc, get, ret. simpl.
    rewrite H1. simpl. rewrite Hnear.
    rewrite (check_window_full i tr x T3 H3 Hlen). cbv zeta.
    unfold polyfit_slope. rewrite Hfin. reflexivity.
  - intros c Hc. apply qlt_stable_of_zero. rewrite Hc. apply ls_slope_repeat.
Qed.

(** C6 (witness).  Ten samples of 5 K and an eleventh: 'reached'. *)
Lemma C6_fit_decides_reached_witness :
  Temp.check_temp_reached
    (Temp.mkTick (Temp.mkAcq None None None None 0 0 false) None 0 (Some (Fin 5)) (Some (Fin 5))
                 None None)
    (mkSt [] (Temp.mkT (repeat (Fin 5) 10) 5 0 false 0 0))
  = Ok true (mkSt [] (Temp.mkT (repeat (Fin 5) 11) 5 0 false 0 0)).
Proof.
  destruct (C6_fit_decides_reached
              (Temp.mkTick (Temp.mkAcq None None None None 0 0 false) None 0 (Some (Fin 5))
                           (Some (Fin 5)) None None)
              (mkSt [] (Temp.mkT (repeat (Fin 5) 10) 5 0 false 0 0))
              (Fin 5) (Fin 5) (repeat 5 11)
              eq_refl eq_refl eq_refl ltac:(unfold Temp.maximal_list_len; simpl; lia) eq_refl) as [Heq Hconst].
  rewrite Heq, (Hconst 5 eq_refl). reflexivity.
Defined.



(** ** The magnet phase machine *)

Lemma while_step {T} n (c : M T bool) (b : M T unit) s s1 s2 :
  c s = Ok true s1 -> b s1 = Ok tt s2 -> while_ (S n) c b s = while_ n c b s2.
Proof. intros Hc Hb. simpl. unfold bind. rewrite Hc, Hb. reflexivity. Qed.

(** In [GOING_ZERO] with last field 1 T, readings of exactly 0.0 keep the
    machine where it is, tick after tick. *)
Lemma ivb_zero_readings_stay rd :
  (forall k, (7 <= k)%nat -> rd k = Some 0) ->
  forall n tr tk, (7 <= tk)%nat ->
  exists s', IvB.main_loop (fun _ => false) (fun _ => Some []) rd n
               (mkSt tr (IvB.mkB IvB.GOING_ZERO 1 1 false tk)) = Raise OutOfFuel s'
             /\ IvB.state (loc s') = IvB.GOING_ZERO.
Proof.
  intros Hrd n. induction n as [|n IH]; intros tr tk Htk.
  - eexists. split; reflexivity.
  - unfold IvB.main_loop.
    rewrite (while_step n _ _ _ (mkSt tr (IvB.mkB IvB.GOING_ZERO 1 1 false tk))
               (mkSt (tr ++ [Record []; EmitData]) (IvB.mkB IvB.GOING_ZERO 1 1 false (S tk))));
      [ apply IH; lia | reflexivity | ].
    unfold IvB.loop_body, IvB.switch_states_if_necessary, IvB.acquire_data_point,
      bind, get_loc, get, ret, try_except, set_loc, modify, emit. simpl.
    rewrite (Hrd tk Htk). simpl. rewrite <- !app_assoc. reflexivity.
Qed.

(** C8 (code_bug).  Field readings that satisfy each phase's tolerance in
    turn, with the exact reading 0.0 in [GOING_ZERO]: the 0.0 is replaced
    by the stale 1 T of the previous tick, so the machine never reaches
    [DONE] and the loop never ends, however many ticks it is given. *)
Theorem C8_zero_reading_stalls_machine (n : nat) :
  match IvB.main_loop (fun _ => false) (fun _ => Some [])
          (fun k => nth k [Some (1#2); Some 1; Some 1; Some (-1); Some (-1); Some 1; Some 1]
                      (Some 0))
          n (IvB.start 1) with
  | Ok _ _ => False
  | Raise e s => e = OutOfFuel /\ IvB.state (loc s) <> IvB.DONE
  end.
Proof.
  (* the first seven ticks: START, GOING_UP, ..., HALTING_UP2 *)
  assert (Hs7 : forall m,
    IvB.main_loop (fun _ => false) (fun _ => Some []) (fun k => nth k [Some (1#2); Some 1; Some 1; Some (-1); Some (-1); Some 1; Some 1] (Some 0)) (7 + m) (IvB.start 1)
    = IvB.main_loop (fun _ => false) (fun _ => Some []) (fun k => nth k [Some (1#2); Some 1; Some 1; Some (-1); Some (-1); Some 1; Some 1] (Some 0)) m
        (mkSt [Record []; EmitData; SetTargetField 1; SetSweepMode TO_SET_POINT;
            Record []; EmitData; Sleep 2; SetSweepMode HOLD;
            Record []; EmitData; SetTargetField (-1); SetSweepMode TO_SET_POINT;
            Record []; EmitData; Sleep 2; SetSweepMode HOLD;
            Record []; EmitData; SetTargetField 1; SetSweepMode TO_SET_POINT;
            Record []; EmitData; Sleep 2; SetSweepMode HOLD;
            Record []; EmitData; SetTargetField 0; SetSweepMode TO_ZERO]
              (IvB.mkB IvB.GOING_ZERO 1 1 false 7))) by (intro m; reflexivity).
  destruct (Nat.lt_ge_cases n 7) as [Hn | Hn].
  - do 7 (destruct n as [|n]; [vm_compute; split; [reflexivity | discriminate] | ]). lia.
  - replace n with (7 + (n - 7))%nat by lia. rewrite Hs7.
    destruct (ivb_zero_readings_stay (fun k => nth k [Some (1#2); Some 1; Some 1; Some (-1); Some (-1); Some 1; Some 1] (Some 0))) with (n := (n - 7)%nat) (tr := [Record []; EmitData; SetTargetField 1; SetSweepMode TO_SET_POINT;
            Record []; EmitData; Sleep 2; SetSweepMode HOLD;
            Record []; EmitData; SetTargetField (-1); SetSweepMode TO_SET_POINT;
            Record []; EmitData; Sleep 2; SetSweepMode HOLD;
            Record []; EmitData; SetTargetField 1; SetSweepMode TO_SET_POINT;
            Record []; EmitData; Sleep 2; SetSweepMode HOLD;
            Record []; EmitData; SetTargetField 0; SetSweepMode TO_ZERO]) (tk := 7%nat)
      as [s' [Hrun Hst]].
    + intros k Hk. apply nth_overflow. simpl. lia.
    + lia.
    + rewrite Hrun. split; [reflexivity | rewrite Hst; discriminate].
Qed.

(** C9 (code_bug).  When [self._mag.get_field()] raises, the failure is
    logged, and then [if not field] reads the local [field] that was never
    assigned: the transition step raises [UnboundLocalError] instead of
    reusing the last known field, whatever the state. *)
Theorem C9_failed_field_read_raises s :
  exists s', IvB.switch_states_if_necessary None s = Raise UnboundLocalError s'
             /\ In LogError (trace s').
Proof.
  eexists. split; [reflexivity |].
  simpl. apply in_or_app. simpl. auto.
Qed.

(** C10.  A successful reading of exactly 0.0 is handled as a failed one:
    the step behaves as if it had read the last known field.  Hence in
    [GOING_ZERO] the step moves to [DONE] exactly when the reading [v] is
    non-zero with [|v| < 0.001], or is 0.0 and the last known field is
    below 0.001 in absolute value. *)
Theorem C10_zero_reading_is_stale :
  (forall s, IvB.switch_states_if_necessary (Some 0) s
             = IvB.switch_states_if_necessary (Some (IvB.last_field (loc s))) s) /\
  (forall tr x v,
     IvB.state x = IvB.GOING_ZERO ->
     exists s', IvB.switch_states_if_necessary (Some v) (mkSt tr x) = Ok tt s' /\
       (IvB.state (loc s') = IvB.DONE <->
          (qzero v = false /\ qlt (Qabs v) (1 # 1000) = true) \/
          (qzero v = true /\ qlt (Qabs (IvB.last_field x)) (1 # 1000) = true))).
Proof.
  split.
  - intros [tr x]. simpl.
    unfold IvB.switch_states_if_necessary, bind, get_loc, get, ret, try_except, read. simpl.
    destruct (qzero (IvB.last_field x)); reflexivity.
  - intros tr [st lf mf stp tk] v Hst. simpl in Hst. subst st. simpl.
    unfold IvB.switch_states_if_necessary, bind, get_loc, get, ret, try_except, read. simpl.
    destruct (qzero v) eqn:Hz.
    + destruct (qlt (Qabs lf) (1 # 1000)) eqn:Hq; eexists; (split; [reflexivity |]);
        simpl; intuition congruence.
    + destruct (qlt (Qabs v) (1 # 1000)) eqn:Hq; eexists; (split; [reflexivity |]);
        simpl; intuition congruence.
Qed.

(** C10 (witness).  In [GOING_ZERO] with last field 0.0001 T, a reading
    of 0.0 finishes the sweep. *)
Lemma C10_zero_reading_witness :
  IvB.switch_states_if_necessary (Some 0) (mkSt [] (IvB.mkB IvB.GOING_ZERO (1#10000) 1 false 0))
  = IvB.switch_states_if_necessary (Some (1#10000))
      (mkSt [] (IvB.mkB IvB.GOING_ZERO (1#10000) 1 false 0)) /\
  exists s', IvB.switch_states_if_necessary (Some 0)
               (mkSt [] (IvB.mkB IvB.GOING_ZERO (1#10000) 1 false 0)) = Ok tt s'
             /\ IvB.state (loc s') = IvB.DONE.
Proof.
  split.
  - exact (proj1 C10_zero_reading_is_stale _).
  - destruct (proj2 C10_zero_reading_is_stale [] (IvB.mkB IvB.GOING_ZERO (1#10000) 1 false 0) 0
                eq_refl) as [s' [Hrun Hiff]].
    exists s'. split; [exact Hrun |]. apply Hiff. right. split; reflexivity.
Defined.

(** * Further properties of the code *)
(** ** Invariants of the state *)

Section Preserves.
Context {S : Type} (I : S -> Prop).

Lemma pr_ret {A} (a : A) : preserves I (ret a).
Proof. intros s H. exact H. Qed.

Lemma pr_raise {A} e : preserves (A:=A) I (raise e).
Proof. intros s H. exact H. Qed.

Lemma pr_read {A} (o : option A) : preserves I (read o).
Proof. destruct o; intros s H; exact H. Qed.

Lemma pr_bind {A B} (m : M S A) (k : A -> M S B) :
  preserves I m -> (forall a, preserves I (k a)) -> preserves I (bind m k).
Proof.
  intros Hm Hk s H. unfold bind. specialize (Hm s H).
  destruct (m s); [apply Hk |]; assumption.
Qed.

Lemma pr_try {A} (m : M S A) (h : exc -> M S A) :
  preserves I m -> (forall e, preserves I (h e)) -> preserves I (try_except m h).
Proof.
  intros Hm Hh s H. unfold try_except. specialize (Hm s H).
  destruct (m s); [| apply Hh]; assumption.
Qed.

Lemma pr_while n (c : M S bool) (b : M S unit) :
  preserves I c -> preserves I b -> preserves I (while_ n c b).
Proof.
  intros Hc Hb. induction n as [|n IH]; simpl; [apply pr_raise|].
  apply pr_bind; [exact Hc|]. intros [|]; [apply pr_bind; auto | apply pr_ret].
Qed.

End Preserves.

Section PreservesLoc.
Context {X : Type} (J : X -> Prop).

Lemma pr_emit e : preserves (fun s : St X => J (loc s)) (emit e).
Proof. intros s H. exact H. Qed.

Lemma pr_set_loc x : J x -> preserves (fun s : St X => J (loc s)) (set_loc x).
Proof. intros Hx s _. exact Hx. Qed.

Lemma pr_get_loc : preserves (fun s : St X => J (loc s)) get_loc.
Proof. intros s H. exact H. Qed.

Lemma pr_get_bind {A} (k : X -> M (St X) A) :
  (forall y, J y -> preserves (fun s => J (loc s)) (k y)) ->
  preserves (fun s => J (loc s)) (bind get_loc k).
Proof. intros Hk s H. exact (Hk (loc s) H s H). Qed.

End PreservesLoc.

Ltac pr :=
  repeat match goal with
  | |- preserves _ (bind get_loc _) => apply pr_get_bind; intros ? ?
  | |- preserves _ (bind _ _) => apply pr_bind; [ | intro ]
  | |- preserves _ (try_except _ _) => apply pr_try; [ | intro ]
  | |- preserves _ (while_ _ _ _) => apply pr_while
  | |- preserves _ (emit _) => apply pr_emit
  | |- preserves _ (ret _) => apply pr_ret
  | |- preserves _ (raise _) => apply pr_raise
  | |- preserves _ (read _) => apply pr_read
  | |- preserves _ get_loc => apply pr_get_loc
  | |- preserves _ (set_loc _) => apply pr_set_loc
  | |- preserves _ (if ?b then _ else _) => destruct b eqn:?
  | |- preserves _ (match ?x with _ => _ end) => destruct x
  | |- preserves _ (let _ := _ in _) => cbv zeta
  end.


Lemma temp_measure_preserves ext world T1 rate ss es fuel te t0 :
  preserves (fun s => temp_inv te t0 (loc s)) (Temp.measure ext world T1 rate ss es fuel).
Proof.
  unfold Temp.measure, Temp.start_sweep, Temp.deinitialize_device, Temp.send_meassage_telegram,
    Temp.keep_going, Temp.loop_body, Temp.tick_rest, Temp.acquire_data_point,
    Temp.check_sensitivitiy, Temp.toggle_pid_if_necessary,
    Temp.check_temp_reached, Temp.check_window, polyfit1.
  pr; unfold temp_inv, Temp.set_window, Temp.set_sens_check_time, lastn in *; simpl in *; try tauto;
    rewrite ?length_app, ?length_skipn; simpl;
    match goal with
    | H : Nat.ltb _ _ = true |- _ => apply Nat.ltb_lt in H
    | _ => idtac
    end; unfold Temp.maximal_list_len in *; intuition lia.
Qed.

Lemma qlt_true a b : qlt a b = true <-> a < b.
Proof.
  unfold qlt. rewrite negb_true_iff. split; intro H.
  - destruct (Qlt_le_dec a b) as [h|h]; [exact h|].
    apply Qle_bool_iff in h. congruence.
  - destruct (Qle_bool b a) eqn:E; [|reflexivity].
    apply Qle_bool_iff in E. exfalso. exact (Qlt_not_le _ _ H E).
Qed.

Lemma qlt_false a b : qlt a b = false <-> b <= a.
Proof.
  unfold qlt. rewrite negb_false_iff. apply Qle_bool_iff.
Qed.

(** X1 (window bound).  Whatever the instruments return and whenever the
    run stops, [_last_temperatures] never holds more than eleven samples
    during a run of [SRS830RvTBlue._measure]. *)
Theorem X_window_at_most_eleven ext world T1 rate ss es fuel te t0 c0 :
  match Temp.measure ext world T1 rate ss es fuel (Temp.start te t0 c0) with
  | Ok _ s | Raise _ s => (length (Temp.last_temperatures (loc s)) <= 11)%nat
  end.
Proof.
  pose proof (temp_measure_preserves ext world T1 rate ss es fuel te t0 (Temp.start te t0 c0)) as H.
  unfold temp_inv in H. simpl in H.
  destruct (Temp.measure ext world T1 rate ss es fuel (Temp.start te t0 c0));
    (destruct H as [H1 H2]; [repeat split; simpl; lia | exact H1]).
Qed.

(** X2 (PID toggle).  No statement of the run assigns [_last_toggle]: it
    keeps the value set by the constructor.  So once 100 s have passed
    since then, every tick with T1 strictly between 20 K and 30 K switches
    the auto-PID off and on again. *)
Theorem X_pid_toggle_repeats :
  (forall ext world T1 rate ss es fuel te t0 c0,
     match Temp.measure ext world T1 rate ss es fuel (Temp.start te t0 c0) with
     | Ok _ s | Raise _ s => Temp.last_toggle (loc s) = t0
     end) /\
  (forall i s T,
     Temp.T1_toggle i = Some (Fin T) -> 20 < T -> T < 30 ->
     Temp.last_toggle (loc s) + 100 < Temp.now i ->
     Temp.toggle_pid_if_necessary i s =
       Ok tt (mkSt (trace s ++ [TogglePid false; Sleep (1#2); TogglePid true]) (loc s))).
Proof.
  split.
  - intros ext world T1 rate ss es fuel te t0 c0.
    pose proof (temp_measure_preserves ext world T1 rate ss es fuel te t0 (Temp.start te t0 c0)) as H.
    unfold temp_inv in H. simpl in H.
    destruct (Temp.measure ext world T1 rate ss es fuel (Temp.start te t0 c0));
      (destruct H as [H1 [H2 H3]]; [repeat split; simpl; lia | exact H2]).
  - intros i [tr x] T HT Hlo Hhi Hnow. simpl in *.
    assert (E : fl_lt (Fin 20) (Fin T) && fl_lt (Fin T) (Fin 30)
                && qlt 100 (Temp.now i - Temp.last_toggle x) = true).
    { unfold fl_lt. fold (qlt 20 T) (qlt T 30).
      rewrite !andb_true_iff, !qlt_true. repeat split; [exact Hlo | exact Hhi |].
      apply (Qplus_lt_l _ _ (Temp.last_toggle x)). ring_simplify. exact Hnow. }
    unfold Temp.toggle_pid_if_necessary, bind, get_loc, get, ret, read. rewrite HT.
    cbn -[fl_lt qlt Qminus]. rewrite E. unfold emit, modify. simpl.
    rewrite <- !app_assoc. reflexivity.
Qed.

(** Witness of [X_pid_toggle_repeats]. *)
Lemma X_pid_toggle_repeats_witness :
  Temp.toggle_pid_if_necessary (Temp.mkTick (Temp.mkAcq None None None None 0 0 false) (Some (Fin 25)) 200 None None None None)
    (Temp.start 5 0 0)
  = Ok tt (mkSt (trace (Temp.start 5 0 0) ++ [TogglePid false; Sleep (1#2); TogglePid true])
                (loc (Temp.start 5 0 0))).
Proof.
  apply (proj2 X_pid_toggle_repeats _ _ 25); reflexivity.
Defined.

Lemma check_window_short_false i tr x b s' :
  (length (Temp.last_temperatures x) < Temp.maximal_list_len)%nat ->
  Temp.check_window i (mkSt tr x) = Ok b s' -> b = false.
Proof.
  intros Hlen H. apply Nat.ltb_lt in Hlen.
  unfold Temp.check_window, try_except, bind, get_loc, get, ret, read in H.
  destruct (Temp.T3_first i); [| destruct (Temp.T3_retry i)];
    cbn -[Nat.ltb Temp.maximal_list_len] in H; rewrite ?Hlen in H; cbn in H; congruence.
Qed.

(** X3 (filling window).  While the window holds fewer than ten samples,
    neither detector ever reports the temperature as reached. *)
Theorem X_short_window_never_reached i s b s' :
  (length (Temp.last_temperatures (loc s)) < Temp.maximal_list_len)%nat ->
  Temp.check_temp_reached i s = Ok b s' \/ Temp.check_temp_reached_ivt i s = Ok b s' ->
  b = false.
Proof.
  intros Hlen Hr. destruct s as [tr x]. simpl in Hlen.
  unfold Temp.check_temp_reached, Temp.check_temp_reached_ivt, bind at 1 2, get_loc, get, ret, read in Hr.
  destruct (Temp.T1_check i); cbn -[Temp.check_window fl_gt] in Hr; [| destruct Hr; discriminate].
  destruct Hr as [Hr | Hr];
    (destruct (fl_gt _ _); [injection Hr; auto | exact (check_window_short_false i tr x b s' Hlen Hr)]).
Qed.

(** Witness of [X_short_window_never_reached]. *)
Lemma X_short_window_never_reached_witness :
  (length (Temp.last_temperatures (loc (Temp.start 5 0 0))) < Temp.maximal_list_len)%nat /\
  (Temp.check_temp_reached (Temp.mkTick (Temp.mkAcq None None None None 0 0 false) None 0 (Some (Fin 5)) (Some (Fin 5)) None None)
     (Temp.start 5 0 0) = Ok false (mkSt [] (Temp.mkT [Fin 5] 5 0 false 0 0))
   \/ Temp.check_temp_reached_ivt (Temp.mkTick (Temp.mkAcq None None None None 0 0 false) None 0 (Some (Fin 5)) (Some (Fin 5)) None None)
     (Temp.start 5 0 0) = Ok false (mkSt [] (Temp.mkT [Fin 5] 5 0 false 0 0))) /\
  false = false.
Proof.
  assert (Hl : (length (Temp.last_temperatures (loc (Temp.start 5 0 0))) < Temp.maximal_list_len)%nat)
    by (unfold Temp.maximal_list_len; simpl; lia).
  assert (Hr : Temp.check_temp_reached (Temp.mkTick (Temp.mkAcq None None None None 0 0 false) None 0 (Some (Fin 5)) (Some (Fin 5)) None None)
     (Temp.start 5 0 0) = Ok false (mkSt [] (Temp.mkT [Fin 5] 5 0 false 0 0))
   \/ Temp.check_temp_reached_ivt (Temp.mkTick (Temp.mkAcq None None None None 0 0 false) None 0 (Some (Fin 5)) (Some (Fin 5)) None None)
     (Temp.start 5 0 0) = Ok false (mkSt [] (Temp.mkT [Fin 5] 5 0 false 0 0))) by (left; reflexivity).
  split; [exact Hl | split; [exact Hr | exact (X_short_window_never_reached _ _ _ _ Hl Hr)]].
Defined.

(** X4 (T3 retry).  When the first read of T3 fails, the detector goes on
    exactly as if the second read had been the first one.  When both reads
    fail, the call raises with the state unchanged. *)
Theorem X_T3_retry_read i s :
  Temp.T3_first i = None ->
  Temp.check_window i s =
    Temp.check_window (Temp.mkTick (Temp.acquire i) (Temp.T1_toggle i) (Temp.now i)
                         (Temp.T1_check i) (Temp.T3_retry i) None (Temp.T1_safety i)) s /\
  (Temp.T3_retry i = None -> Temp.check_window i s = Raise DeviceError s).
Proof.
  intro H. unfold Temp.check_window, try_except, bind, read. simpl. rewrite H.
  split; [destruct (Temp.T3_retry i); reflexivity | intro H'; rewrite H'; reflexivity].
Qed.

(** Witness of [X_T3_retry_read]. *)
Lemma X_T3_retry_read_witness :
  Temp.T3_first (Temp.mkTick (Temp.mkAcq None None None None 0 0 false) None 0 None None (Some (Fin 4)) None) = None /\
  Temp.check_window (Temp.mkTick (Temp.mkAcq None None None None 0 0 false) None 0 None None (Some (Fin 4)) None) (Temp.start 5 0 0) =
    Temp.check_window (Temp.mkTick (Temp.mkAcq None None None None 0 0 false) None 0 None (Some (Fin 4)) None None) (Temp.start 5 0 0).
Proof.
  split; [reflexivity | exact (proj1 (X_T3_retry_read (Temp.mkTick (Temp.mkAcq None None None None 0 0 false) None 0 None None (Some (Fin 4)) None) _ eq_refl))].
Defined.

(** X5 (fast path).  [SRS830RvTBlue._check_temp_reached] returns False
    without touching the window when T1 is more than 1 K away from the
    target, on either side.  A NaN reading of T1 never takes the fast path:
    the call goes on to the window. *)
Theorem X_srs_fast_path i s :
  (forall t, Temp.T1_check i = Some (Fin t) ->
     1 < Qabs (t - Temp.temperature_end (loc s)) ->
     Temp.check_temp_reached i s = Ok false s) /\
  (Temp.T1_check i = Some NaN -> Temp.check_temp_reached i s = Temp.check_window i s).
Proof.
  split.
  - intros t H1 Hfar. apply (srs_fast_path_rejects i s (Fin t) H1).
    unfold fl_gt, fl_lt. simpl. fold (qlt 1 (Qabs (t - Temp.temperature_end (loc s)))).
    apply qlt_true. exact Hfar.
  - intro H1. destruct s as [tr x].
    unfold Temp.check_temp_reached, bind at 1 2, get_loc, get, ret, read. rewrite H1. reflexivity.
Qed.

(** Witness of [X_srs_fast_path]. *)
Lemma X_srs_fast_path_witness :
  Temp.check_temp_reached (Temp.mkTick (Temp.mkAcq None None None None 0 0 false) None 0 (Some (Fin 3)) None None None) (Temp.start 5 0 0)
    = Ok false (Temp.start 5 0 0) /\
  Temp.check_temp_reached (Temp.mkTick (Temp.mkAcq None None None None 0 0 false) None 0 (Some NaN) None None None) (Temp.start 5 0 0)
    = Temp.check_window (Temp.mkTick (Temp.mkAcq None None None None 0 0 false) None 0 (Some NaN) None None None) (Temp.start 5 0 0).
Proof.
  split.
  - apply (proj1 (X_srs_fast_path _ _) 3); reflexivity.
  - apply (proj2 (X_srs_fast_path _ _)); reflexivity.
Defined.

(** X6 (end of a temperature sweep).  In a tick whose check reports
    'reached', the code sets its stop flag and, when T1 is below 20 K,
    sets the temperature set point to 15 K.  The loop condition is then
    false at the next check. *)
Theorem X_reached_stops_with_safety_setpoint i s s2 T1 :
  bind (Temp.toggle_pid_if_necessary i) (fun _ => Temp.check_temp_reached i) s = Ok true s2 ->
  Temp.T1_safety i = Some T1 ->
  let y := loc s2 in
  let s3 := mkSt (trace s2 ++ (if fl_lt T1 (Fin 20) then [SetTempSetPoint (Fin 15)] else []))
                 (Temp.mkT (Temp.last_temperatures y) (Temp.temperature_end y)
                           (Temp.last_toggle y) true (S (Temp.tick y)) (Temp.sens_check_time y)) in
  Temp.tick_rest i s = Ok tt s3 /\ (forall ext, Temp.keep_going ext s3 = Ok false s3).
Proof.
  intros H HT. cbv zeta. split.
  - unfold Temp.tick_rest. unfold bind at 1. unfold bind in H.
    destruct (Temp.toggle_pid_if_necessary i s) as [[] s1 | e s1]; [| discriminate].
    unfold bind at 1. rewrite H. destruct s2 as [tr2 [w e t st tk c]].
    unfold bind, get_loc, get, ret, set_loc, modify, read. simpl. rewrite HT.
    unfold emit, modify. destruct T1 as [q|]; simpl; [destruct (Qle_bool 20 q) |]; simpl;
      rewrite ?app_nil_r; reflexivity.
  - intro ext. unfold Temp.keep_going, bind, get_loc, get, ret. simpl.
    rewrite orb_true_r. reflexivity.
Qed.

(** Witness of [X_reached_stops_with_safety_setpoint]. *)
Lemma X_reached_stops_with_safety_setpoint_witness :
  Temp.tick_rest (Temp.mkTick (Temp.mkAcq None None None None 0 0 false) (Some (Fin 5)) 0 (Some (Fin 5)) (Some (Fin 5)) None (Some (Fin 5)))
    (mkSt [] (Temp.mkT (repeat (Fin 5) 10) 5 0 false 0 0))
  = Ok tt (mkSt [SetTempSetPoint (Fin 15)] (Temp.mkT (repeat (Fin 5) 11) 5 0 true 1 0)).
Proof.
  destruct (X_reached_stops_with_safety_setpoint
              (Temp.mkTick (Temp.mkAcq None None None None 0 0 false) (Some (Fin 5)) 0 (Some (Fin 5)) (Some (Fin 5)) None (Some (Fin 5)))
              (mkSt [] (Temp.mkT (repeat (Fin 5) 10) 5 0 false 0 0))
              (mkSt [] (Temp.mkT (repeat (Fin 5) 11) 5 0 false 0 0)) (Fin 5)
              ltac:(vm_compute; reflexivity) eq_refl) as [H _].
  exact H.
Defined.

Lemma targets_app a b : targets (a ++ b) = targets a ++ targets b.
Proof. unfold targets. apply flat_map_app. Qed.

(** X7 (phase order).  A successful step of the magnet phase machine keeps
    its state or moves to the next one in the order START .. DONE; it
    never skips a phase or goes back, and it leaves [_max_field]
    unchanged.  From START and from the three HALTING states it always
    moves on. *)
Theorem X_phase_never_skips raw s s' :
  IvB.switch_states_if_necessary raw s = Ok tt s' ->
  (IvB.state (loc s') = IvB.state (loc s) \/
   IvB.state_value (IvB.state (loc s')) = S (IvB.state_value (IvB.state (loc s)))) /\
  IvB.max_field (loc s') = IvB.max_field (loc s) /\
  (In (IvB.state (loc s)) [IvB.START; IvB.HALTING_UP; IvB.HALTING_DOWN; IvB.HALTING_UP2] ->
   IvB.state_value (IvB.state (loc s')) = S (IvB.state_value (IvB.state (loc s)))).
Proof.
  intro H. destruct s as [tr [st lf mf stp tk]]. destruct raw as [v|]; [| discriminate].
  unfold IvB.switch_states_if_necessary, IvB.goto, bind, get_loc, get, ret, try_except, read,
    set_loc, emit, modify in H.
  simpl in H. destruct (qzero v); destruct st; simpl in H;
    repeat match type of H with context [if ?b then _ else _] => destruct b end;
    injection H as <-; simpl; intuition discriminate.
Qed.

(** Witness of [X_phase_never_skips]. *)
Lemma X_phase_never_skips_witness :
  exists s', IvB.switch_states_if_necessary (Some 1) (IvB.start 1) = Ok tt s' /\
    IvB.state_value (IvB.state (loc s')) = S (IvB.state_value (IvB.state (loc (IvB.start 1)))).
Proof.
  exists (mkSt [SetTargetField 1; SetSweepMode TO_SET_POINT] (IvB.mkB IvB.GOING_UP 1 1 false 0)).
  split; [reflexivity |].
  apply (X_phase_never_skips (Some 1) (IvB.start 1) _ eq_refl). simpl. auto.
Defined.

(** X8 (termination after DONE).  From DONE with no stop request, exactly
    one more tick runs: one acquisition (or its logged failure), then the
    field is read.  When that read succeeds, the stop flag is set, the
    magnet is put on HOLD and the loop exits normally; when it fails, the
    failure is logged and the tick raises [UnboundLocalError] from
    [if not field], with the stop flag still unset. *)
Theorem X_done_then_exit ext acq rd n tr x :
  IvB.state x = IvB.DONE -> IvB.stopped x = false -> ext (IvB.tick x) = false ->
  exists pre, (pre = [LogError] \/ exists vals, pre = [Record vals; EmitData]) /\
  match rd (IvB.tick x) with
  | Some _ =>
      exists s', IvB.main_loop ext acq rd (S (S n)) (mkSt tr x) = Ok tt s' /\
        IvB.state (loc s') = IvB.DONE /\ IvB.stopped (loc s') = true /\
        trace s' = tr ++ pre ++ [SetSweepMode HOLD]
  | None =>
      exists s', IvB.main_loop ext acq rd (S (S n)) (mkSt tr x) = Raise UnboundLocalError s' /\
        IvB.stopped (loc s') = false /\ trace s' = tr ++ pre ++ [LogError]
  end.
Proof.
  intros Hst Hstp Hext. destruct x as [st lf mf stp tk]. simpl in *. subst st stp.
  unfold IvB.main_loop. simpl.
  unfold IvB.keep_going, IvB.loop_body, IvB.acquire_data_point, IvB.switch_states_if_necessary,
    bind, get_loc, get, ret, raise, try_except, read, set_loc, emit, modify. simpl.
  rewrite Hext. simpl.
  destruct (acq tk) as [vals|].
  - exists [Record vals; EmitData]. split; [eauto |].
    destruct (rd tk) as [v|]; simpl; [rewrite orb_true_r; simpl |];
      eexists; (split; [reflexivity|]); simpl; rewrite <- !app_assoc; auto.
  - exists [LogError]. split; [auto |].
    destruct (rd tk) as [v|]; simpl; [rewrite orb_true_r; simpl |];
      eexists; (split; [reflexivity|]); simpl; rewrite <- !app_assoc; auto.
Qed.

(** Witness of [X_done_then_exit]: the field read of the last tick
    succeeds. *)
Lemma X_done_then_exit_witness :
  IvB.state (IvB.mkB IvB.DONE 0 1 false 0) = IvB.DONE /\
  exists pre, (pre = [LogError] \/ exists vals, pre = [Record vals; EmitData]) /\
  exists s', IvB.main_loop (fun _ => false) (fun _ => None) (fun _ => Some 0) 2
               (mkSt [] (IvB.mkB IvB.DONE 0 1 false 0)) = Ok tt s' /\
    IvB.state (loc s') = IvB.DONE /\ IvB.stopped (loc s') = true /\
    trace s' = [] ++ pre ++ [SetSweepMode HOLD].
Proof.
  split; [reflexivity |].
  exact (X_done_then_exit (fun _ => false) (fun _ => None) (fun _ => Some 0) 0 []
           (IvB.mkB IvB.DONE 0 1 false 0) eq_refl eq_refl eq_refl).
Defined.

Lemma ivb_loop_plan ext acq rd fuel m :
  preserves (ivb_plan_inv m) (IvB.main_loop ext acq rd fuel).
Proof.
  unfold IvB.main_loop. apply pr_while.
  - intros s H. exact H.
  - intros [tr [st lf mf stp tk]] [Ht Hm]. simpl in Ht, Hm. subst mf.
    unfold IvB.loop_body, IvB.acquire_data_point, IvB.switch_states_if_necessary, IvB.goto,
      bind, get_loc, get, ret, try_except, read, set_loc, emit, modify. simpl.
    destruct (acq tk); destruct (rd tk) as [v|]; simpl;
      [ destruct (qzero v) | | destruct (qzero v) | ]; try destruct st; simpl;
      repeat match goal with |- context [if ?b then _ else _] => destruct b end;
      unfold ivb_plan_inv; simpl; rewrite ?targets_app, Ht; simpl;
      unfold field_plan; simpl; rewrite <- ?app_assoc; simpl; auto.
Qed.

(** X9 (target fields).  During the main loop of the field sweep, the
    fields sent to [set_target_field] are always a prefix of
    [max_field, -max_field, max_field, 0], in this order.  The prefix has
    the length that the current phase gives. *)
Theorem X_magnet_targets_follow_plan ext acq rd fuel m :
  match IvB.main_loop ext acq rd fuel (IvB.start m) with
  | Ok _ s | Raise _ s => targets (trace s) = firstn (issued (IvB.state (loc s))) (field_plan m)
  end.
Proof.
  pose proof (ivb_loop_plan ext acq rd fuel m (IvB.start m) (conj eq_refl eq_refl)) as H.
  destruct (IvB.main_loop ext acq rd fuel (IvB.start m)); apply H.
Qed.

Lemma ivb_wait_zero_only zr n k f (P : ev -> Prop) :
  P (Sleep 1) -> emits_only (X:=IvB.bstate) P (IvB.wait_zero zr n k f).
Proof.
  intro HP. revert k f. induction n as [|n IH]; intros k f; simpl; [apply eo_raise|].
  destruct (qlt _ _); [apply eo_ret|].
  apply eo_bind; [apply eo_emit; exact HP | intros _].
  apply eo_bind; [apply eo_read | intro g; apply IH].
Qed.

Lemma in_firstn_plan m k f :
  0 <= m -> In f (firstn k (field_plan m)) -> Qabs f <= m.
Proof.
  intros Hm Hin.
  assert (Hf : In f (field_plan m)) by (rewrite <- (firstn_skipn k (field_plan m)); apply in_or_app; auto).
  clear Hin. simpl in Hf. destruct Hf as [<- | [<- | [<- | [<- | []]]]].
  - rewrite Qabs_pos; [apply Qle_refl | exact Hm].
  - rewrite Qabs_opp, Qabs_pos; [apply Qle_refl | exact Hm].
  - rewrite Qabs_pos; [apply Qle_refl | exact Hm].
  - exact Hm.
Qed.

Lemma targets_bounded m ext :
  Forall (fun e => forall g, e = SetTargetField g -> Qabs g <= m) ext ->
  forall f, In f (targets ext) -> Qabs f <= m.
Proof.
  induction 1 as [|e ext He _ IH]; simpl; [tauto|].
  intros f Hin. apply in_app_or in Hin. destruct Hin as [Hin | Hin]; [| auto].
  destruct e; simpl in Hin; try tauto. destruct Hin as [<- | []]. apply He. reflexivity.
Qed.

(** X10 (field range).  For every maximal field that the constructor
    accepts, a whole run of [SMU2ProbeHSweep2636AIvB._measure], teardown
    included, never sends a target field above [max_field] in magnitude,
    and so never one above 8 T. *)
Theorem X_magnet_within_max_field ext acq rd zr fuel mv m rate :
  ivb_init_accepts m rate = true ->
  match IvB.measure ext acq rd zr fuel mv (IvB.start m) with
  | Ok _ s | Raise _ s => forall f, In f (targets (trace s)) -> Qabs f <= m /\ Qabs f <= 8
  end.
Proof.
  intro Hacc. unfold ivb_init_accepts in Hacc. rewrite !andb_true_iff, !Qle_bool_iff in Hacc.
  destruct Hacc as [[[Hm0 Hm8] _] _].
  assert (Hfin : forall f, Qabs f <= m -> Qabs f <= m /\ Qabs f <= 8)
    by (intros f Hf; split; [exact Hf | exact (Qle_trans _ _ _ Hf Hm8)]).
  unfold IvB.measure. cbv beta iota delta [bind emit modify].
  match goal with |- context [IvB.main_loop ?a ?b ?c ?d ?s] =>
    pose proof (ivb_loop_plan a b c d m s (conj eq_refl eq_refl)) as Hp;
    destruct (IvB.main_loop a b c d s) as [u s2 | e s2] end.
  - destruct Hp as [Ht _].
    assert (Hd : emits_only (fun e => forall g, e = SetTargetField g -> Qabs g <= m)
                   (IvB.deinitialize_device zr fuel)).
    { unfold IvB.deinitialize_device. eo;
        try (apply ivb_wait_zero_only; intros g Hg; discriminate);
        apply eo_emit; intros g Hg; try discriminate.
      injection Hg as <-. rewrite Qabs_pos; [exact Hm0 | apply Qle_refl]. }
    specialize (Hd s2).
    destruct (IvB.deinitialize_device zr fuel s2) as [u' s3 | e' s3];
      destruct Hd as [ext' [Ht3 Hf]]; intros f Hin; apply Hfin;
      rewrite Ht3, targets_app in Hin; apply in_app_or in Hin;
      (destruct Hin as [Hin | Hin];
       [rewrite Ht in Hin; exact (in_firstn_plan m _ f Hm0 Hin)
       | exact (targets_bounded m ext' Hf f Hin)]).
  - destruct Hp as [Ht _]. intros f Hin. apply Hfin. rewrite Ht in Hin.
    exact (in_firstn_plan m _ f Hm0 Hin).
Qed.

(** Witness of [X_magnet_within_max_field]. *)
Lemma X_magnet_within_max_field_witness :
  ivb_init_accepts 1 (1 # 2) = true /\
  match IvB.measure (fun _ => false) (fun _ => None) (fun _ => Some 0) (fun _ => Some 0) 3 0 (IvB.start 1) with
  | Ok _ s | Raise _ s => forall f, In f (targets (trace s)) -> Qabs f <= 1 /\ Qabs f <= 8
  end.
Proof.
  split; [reflexivity | exact (X_magnet_within_max_field (fun _ => false) (fun _ => None) (fun _ => Some 0) (fun _ => Some 0) 3 0 1 (1 # 2) eq_refl)].
Defined.

Lemma settles_ext a b k : (forall i, a i = b i) -> settles a k -> settles b k.
Proof.
  intros E [H1 [g [Hg Hq]]]. split.
  - intros i Hi. rewrite <- E. apply H1. exact Hi.
  - exists g. rewrite <- E. auto.
Qed.

Lemma wait_zero_settles zr : forall k n j f tr x,
  (k < n)%nat ->
  settles (fun i => match i with O => Some f | S i' => zr (j + i')%nat end) k ->
  IvB.wait_zero zr n j f (mkSt tr x) = Ok tt (mkSt (tr ++ repeat (Sleep 1) k) x).
Proof.
  induction k as [|k IH]; intros n j f tr x Hn Hs; (destruct n as [|n]; [lia|]).
  - destruct Hs as [_ [g [Hg Hq]]]. injection Hg as <-. simpl. rewrite Hq, app_nil_r. reflexivity.
  - destruct Hs as [Hb Hend].
    destruct (Hb 0%nat ltac:(lia)) as [g0 [Hg0 Hq0]]. injection Hg0 as <-.
    assert (Hj : exists g1, zr j = Some g1).
    { destruct k as [|k].
      - destruct Hend as [g [Hg _]]. rewrite Nat.add_0_r in Hg. eauto.
      - destruct (Hb 1%nat ltac:(lia)) as [g [Hg _]]. rewrite Nat.add_0_r in Hg. eauto. }
    destruct Hj as [g1 Hj].
    simpl. rewrite Hq0. unfold bind, emit, modify, read. simpl. rewrite Hj. unfold ret.
    rewrite (IH n (S j) g1 (tr ++ [Sleep 1]) x); [| lia |].
    + rewrite <- app_assoc. reflexivity.
    + apply (settles_ext (fun i => match S i with O => Some f | S i' => zr (j + i')%nat end)).
      * intros [|i]; simpl; [rewrite Nat.add_0_r; exact Hj | f_equal; lia].
      * split; [intros i Hi; apply (Hb (S i)); lia | exact Hend].
Qed.

Lemma wait_zero_ok_settles zr : forall n j f s u s',
  IvB.wait_zero zr n j f s = Ok u s' ->
  exists k, (k < n)%nat /\
    settles (fun i => match i with O => Some f | S i' => zr (j + i')%nat end) k.
Proof.
  induction n as [|n IH]; intros j f s u s' H; simpl in H; [discriminate|].
  destruct (qlt (Qabs f) (1 # 1000)) eqn:Hq.
  - exists 0%nat. split; [lia|]. split; [intros; lia | exists f; auto].
  - unfold bind, emit, modify, read in H. simpl in H.
    destruct (zr j) as [g1|] eqn:Hj; [| discriminate].
    destruct (IH (S j) g1 _ u s' H) as [k [Hk [Hb [g [Hg Hg']]]]].
    exists (S k). split; [lia|]. split.
    + intros [|i] Hi; [exists f; auto|].
      destruct i as [|i].
      * exists g1. rewrite Nat.add_0_r. split; [exact Hj|].
        destruct k as [|k]; [lia|]. destruct (Hb 0%nat ltac:(lia)) as [g' [Hg0 Hq0]].
        injection Hg0 as <-. exact Hq0.
      * destruct (Hb (S i) ltac:(lia)) as [g' [Hg0 Hq0]]. exists g'.
        split; [rewrite <- Hg0; f_equal; lia | exact Hq0].
    + exists g. split; [| exact Hg'].
      destruct k as [|k].
      * injection Hg as <-. rewrite Nat.add_0_r. exact Hj.
      * rewrite <- Hg. f_equal. lia.
Qed.

(** X11 (teardown wait).  The teardown of the field sweep polls the magnet
    once per second until a reading is below 0.001 T in magnitude, and
    only then puts it on HOLD.  After [k] readings at or above the
    threshold it sleeps [k] times.  Conversely, a teardown that returns
    has seen such a reading. *)
Theorem X_teardown_waits_for_zero_field zr fuel tr x :
  (forall k, (k < fuel)%nat -> settles zr k ->
     IvB.deinitialize_device zr fuel (mkSt tr x) =
       Ok tt (mkSt (tr ++ [SetVoltage 0; Disarm; SetTargetField 0; SetSweepMode TO_ZERO]
                      ++ repeat (Sleep 1) k ++ [SetSweepMode HOLD]) x)) /\
  (forall u s', IvB.deinitialize_device zr fuel (mkSt tr x) = Ok u s' ->
     exists k, (k < fuel)%nat /\ settles zr k).
Proof.
  split.
  - intros k Hk Hs.
    assert (H0 : exists f0, zr 0%nat = Some f0).
    { destruct k as [|k]; [destruct Hs as [_ [g [Hg _]]] | destruct (proj1 Hs 0%nat ltac:(lia)) as [g [Hg _]]];
        eauto. }
    destruct H0 as [f0 H0].
    unfold IvB.deinitialize_device, bind, emit, modify, read. simpl. rewrite H0. unfold ret.
    rewrite (wait_zero_settles zr k fuel 1 f0); [| exact Hk |].
    + simpl. rewrite <- !app_assoc. reflexivity.
    + apply (settles_ext zr); [| exact Hs].
      intros [|i]; [exact H0 | reflexivity].
  - intros u s' H.
    unfold IvB.deinitialize_device, bind, emit, modify, read in H. simpl in H.
    destruct (zr 0%nat) as [f0|] eqn:H0; [| discriminate]. unfold ret in H.
    destruct (IvB.wait_zero zr fuel 1 f0 _) as [u1 s1 | e s1] eqn:Hw; [| discriminate].
    destruct (wait_zero_ok_settles zr fuel 1 f0 _ u1 s1 Hw) as [k [Hk Hs]].
    exists k. split; [exact Hk |]. apply (settles_ext (fun i => match i with O => Some f0 | S i' => zr (1 + i')%nat end) zr); [| exact Hs].
    intros [|i]; [symmetry; exact H0 | reflexivity].
Qed.

(** Witness of [X_teardown_waits_for_zero_field]. *)
Lemma X_teardown_waits_for_zero_field_witness :
  IvB.deinitialize_device (fun k => nth k [Some 1; Some (1#2); Some 0] None) 5 (IvB.start 1)
  = Ok tt (mkSt ([] ++ [SetVoltage 0; Disarm; SetTargetField 0; SetSweepMode TO_ZERO]
                 ++ repeat (Sleep 1) 2%nat ++ [SetSweepMode HOLD]) (loc (IvB.start 1))).
Proof.
  apply (proj1 (X_teardown_waits_for_zero_field _ 5 [] (loc (IvB.start 1))) 2%nat); [lia |].
  split.
  - intros i Hi. destruct i as [|[|i]]; [exists 1 | exists (1#2) | lia]; split; reflexivity.
  - exists 0. split; reflexivity.
Defined.

Lemma linspace_eq a b k :
  linspace a b (S (S k)) =
  map (fun i => a + inject_Z (Z.of_nat i) * (b - a) / inject_Z (Z.of_nat (S k))) (seq 0 (S (S k))).
Proof. reflexivity. Qed.

Lemma linspace_length a b n : length (linspace a b n) = n.
Proof. destruct n as [|[|k]]; [reflexivity | reflexivity |]. rewrite linspace_eq, length_map, length_seq. reflexivity. Qed.

Lemma linspace_nth a b k j : (j < S (S k))%nat ->
  nth j (linspace a b (S (S k))) 0 == a + inject_Z (Z.of_nat j) * (b - a) / inject_Z (Z.of_nat (S k)).
Proof.
  intro Hj. rewrite linspace_eq.
  set (f := fun i : nat => a + inject_Z (Z.of_nat i) * (b - a) / inject_Z (Z.of_nat (S k))).
  rewrite (nth_indep _ 0 (f 0%nat)) by (rewrite length_map, length_seq; exact Hj).
  rewrite map_nth, seq_nth by exact Hj. reflexivity.
Qed.

Lemma inject_succ_nz k : ~ inject_Z (Z.of_nat (S k)) == 0.
Proof. unfold Qeq. simpl. lia. Qed.

Lemma inject_succ j : inject_Z (Z.of_nat (S j)) == inject_Z (Z.of_nat j) + 1.
Proof. rewrite Nat2Z.inj_succ, <- Z.add_1_r, inject_Z_plus. reflexivity. Qed.

(** X12 (linspace).  [numpy.linspace(a, b, n)] has [n] points; it starts
    at [a], ends at [b] when [n >= 2], and increases strictly when
    [a < b].  So for a positive [max_voltage] the ramp of
    [SMU2Probe2636A] climbs from 0 to [max_voltage]. *)
Theorem X_linspace_shape a b n :
  length (linspace a b n) = n /\
  ((1 <= n)%nat -> nth 0 (linspace a b n) 0 == a) /\
  ((2 <= n)%nat -> nth (n - 1) (linspace a b n) 0 == b) /\
  (a < b -> forall j, (S j < n)%nat -> nth j (linspace a b n) 0 < nth (S j) (linspace a b n) 0).
Proof.
  split; [apply linspace_length|].
  destruct n as [|[|k]].
  - repeat split; intros; lia.
  - split; [intros _; reflexivity|]. split; intros; lia.
  - pose proof (inject_succ_nz k) as Hk. split; [| split].
    + intros _. rewrite linspace_nth by lia. simpl. field. exact Hk.
    + intros _. rewrite linspace_nth by lia.
      replace (S (S k) - 1)%nat with (S k) by lia. field. exact Hk.
    + intros Hab j Hj. rewrite !linspace_nth by lia. rewrite (inject_succ j).
      apply Qlt_minus_iff.
      setoid_replace (a + (inject_Z (Z.of_nat j) + 1) * (b - a) / inject_Z (Z.of_nat (S k)) +
                      - (a + inject_Z (Z.of_nat j) * (b - a) / inject_Z (Z.of_nat (S k))))
        with ((b - a) / inject_Z (Z.of_nat (S k))) by (field; exact Hk).
      apply Qlt_shift_div_l; [unfold Qlt; simpl; lia |].
      rewrite Qmult_0_l. apply Qlt_minus_iff in Hab. exact Hab.
Qed.

(** X13 (voltage space).  [_setup_voltage_space] has [2 n] points, and for
    [n >= 2] its second half mirrors the first (0 -> max -> 0).  With one
    point per half it is [0, max_voltage]: the sweep ends at the maximum,
    not at zero. *)
Theorem X_voltage_space_mirror max_voltage n :
  length (HSweep.setup_voltage_space max_voltage n) = (2 * n)%nat /\
  ((2 <= n)%nat -> forall j, (j < n)%nat ->
     nth (n + j) (HSweep.setup_voltage_space max_voltage n) 0 ==
     nth (n - 1 - j) (HSweep.setup_voltage_space max_voltage n) 0) /\
  HSweep.setup_voltage_space max_voltage 1 = [0; max_voltage].
Proof.
  unfold HSweep.setup_voltage_space. split; [| split; [| reflexivity]].
  - rewrite length_app, !linspace_length. lia.
  - intros Hn j Hj. destruct n as [|[|k]]; [lia | lia |].
    rewrite app_nth2 by (rewrite linspace_length; lia).
    rewrite app_nth1 by (rewrite linspace_length; lia).
    rewrite linspace_length. replace (S (S k) + j - S (S k))%nat with j by lia.
    rewrite !linspace_nth by lia.
    replace (S (S k) - 1 - j)%nat with (S k - j)%nat by lia.
    rewrite Nat2Z.inj_sub by lia. rewrite <- Z.add_opp_r, inject_Z_plus, inject_Z_opp.
    pose proof (inject_succ_nz k). field. assumption.
Qed.

Lemma ramp_loop_complete is_set dev_read traj : forall (m : nat) tr,
  (forall j, (j < length traj)%nat -> is_set (m + j)%nat = false /\ dev_read (m + j)%nat <> None) ->
  Ramp.ramp_loop is_set dev_read traj (mkSt tr m) =
    Ok tt (mkSt (tr ++ ramp_completed dev_read traj (length traj) m) (m + length traj)%nat).
Proof.
  induction traj as [|v rest IH]; intros m tr Hpre.
  - simpl. rewrite app_nil_r, Nat.add_0_r. reflexivity.
  - destruct (Hpre 0%nat ltac:(simpl; lia)) as [Hs0 Hr0]. rewrite Nat.add_0_r in Hs0, Hr0.
    destruct (dev_read m) as [[a b]|] eqn:Hr; [|congruence].
    simpl. unfold bind, get_loc, get, ret, emit, modify, set_loc, read. simpl.
    rewrite Hs0, Hr. simpl.
    rewrite (IH (S m)).
    + replace (S m + length rest)%nat with (m + S (length rest))%nat by lia.
      rewrite <- !app_assoc. reflexivity.
    + intros j Hj. replace (S m + j)%nat with (m + S j)%nat by lia. apply Hpre. simpl. lia.
Qed.

Lemma ramp_completed_shape dev_read traj : forall m,
  (forall j, (j < length traj)%nat -> dev_read (m + j)%nat <> None) ->
  setpoints (ramp_completed dev_read traj (length traj) m) = traj /\
  records (ramp_completed dev_read traj (length traj) m) =
    map (fun j => match dev_read j with Some (v, i) => [v; i] | None => [] end)
        (seq m (length traj)) /\
  ~ In EmitAborted (ramp_completed dev_read traj (length traj) m).
Proof.
  induction traj as [|v rest IH]; intros m Hpre; [simpl; tauto|].
  assert (H0 := Hpre 0%nat ltac:(simpl; lia)). rewrite Nat.add_0_r in H0.
  destruct (IH (S m)) as [Hs [Hr Ha]].
  { intros j Hj. replace (S m + j)%nat with (m + S j)%nat by lia. apply Hpre. simpl. lia. }
  simpl. destruct (dev_read m) as [[a b]|]; [|congruence]. simpl.
  unfold setpoints, records in *. simpl. rewrite Hs, Hr. split; [reflexivity | split; [reflexivity|]].
  intros [H | [H | [H | H]]]; try discriminate. exact (Ha H).
Qed.

(** X14 (complete ramp).  When the flag is never set and every read
    succeeds, the voltage ramp applies the trajectory in order and then 0,
    and writes one record per point with the measured pair.  It never
    notifies 'aborted'. *)
Theorem X_ramp_full_run is_set dev_read traj :
  (forall j, (j < length traj)%nat -> is_set j = false /\ dev_read j <> None) ->
  exists s, Ramp.measure is_set dev_read traj Ramp.start = Ok tt s /\
    setpoints (trace s) = traj ++ [0] /\
    records (trace s) =
      map (fun j => match dev_read j with Some (v, i) => [v; i] | None => [] end)
          (seq 0 (length traj)) /\
    ~ In EmitAborted (trace s) /\ loc s = length traj.
Proof.
  intro Hpre. unfold Ramp.measure, Ramp.initialize_device, Ramp.deinitialize_device.
  unfold bind at 1 2 3. simpl. unfold bind at 1.
  rewrite (ramp_loop_complete is_set dev_read traj 0 _ Hpre).
  destruct (ramp_completed_shape dev_read traj 0) as [Hs [Hr Ha]].
  { intros j Hj. apply Hpre. exact Hj. }
  unfold bind, emit, modify. simpl. eexists. split; [reflexivity|]. simpl.
  unfold setpoints, records in *. rewrite !flat_map_app. simpl. rewrite Hs, Hr.
  split; [rewrite app_nil_r; reflexivity | split; [rewrite ?app_nil_r; reflexivity | split; [| reflexivity]]].
  intros [H | [H | [H | Hin]]]; try discriminate.
  repeat (apply in_app_or in Hin; destruct Hin as [Hin | Hin]);
    first [exact (Ha Hin) | simpl in Hin; intuition discriminate].
Qed.

(** Witness of [X_ramp_full_run]. *)
Lemma X_ramp_full_run_witness :
  exists s, Ramp.measure (fun _ => false) (fun _ => Some (1, 2)) [0; 1] Ramp.start = Ok tt s /\
    setpoints (trace s) = [0; 1] ++ [0] /\
    records (trace s) =
      map (fun j => match (fun _ : nat => Some (1, 2)) j with Some (v, i) => [v; i] | None => [] end)
          (seq 0 (length [0; 1])) /\
    ~ In EmitAborted (trace s) /\ loc s = length [0; 1].
Proof.
  apply (X_ramp_full_run (fun _ => false) (fun _ => Some (1, 2)) [0; 1]).
  intros j _. split; [reflexivity | discriminate].
Defined.

(** Witness of [X_linspace_shape]. *)
Lemma X_linspace_shape_witness :
  (2 <= 3)%nat /\ nth (3 - 1) (linspace 0 1 3) 0 == 1 /\
  nth 0 (linspace 0 1 3) 0 < nth 1 (linspace 0 1 3) 0.
Proof.
  destruct (X_linspace_shape 0 1 3) as [_ [_ [Hlast Hinc]]].
  split; [lia|]. split; [apply Hlast; lia|]. apply Hinc; [reflexivity | lia].
Defined.

(** Witness of [X_voltage_space_mirror]. *)
Lemma X_voltage_space_mirror_witness :
  (2 <= 3)%nat /\
  nth (3 + 0) (HSweep.setup_voltage_space 1 3) 0 == nth (3 - 1 - 0) (HSweep.setup_voltage_space 1 3) 0.
Proof.
  split; [lia|]. apply (proj1 (proj2 (X_voltage_space_mirror 1 3))); lia.
Defined.

(** X15 (sensitivity rate limit).  After
    [SRS830RvTBlue._check_sensitivitiy] has changed the sensitivity, it
    changes nothing in calls made within the next 10 s. *)
Theorem X_sensitivity_rate_limited r s now after t c t' :
  Sens.check_sensitivitiy r s now after t = Some (Some c, t') ->
  t' = after /\
  (forall r2 s2 now2 after2, now2 <= after + 10 ->
     Sens.check_sensitivitiy r2 s2 now2 after2 t' = Some (None, t')).
Proof.
  unfold Sens.check_sensitivitiy at 1. intro H.
  destruct (qlt (t + 10) now); [| discriminate].
  destruct (py_index Sens.sensitivity_list s) as [mx|]; [| discriminate].
  assert (Ht : t' = after).
  { destruct (qlt _ r); [injection H; auto|]. destruct (qlt r _); [injection H; auto | discriminate]. }
  subst t'. split; [reflexivity|]. intros r2 s2 now2 after2 Hle.
  unfold Sens.check_sensitivitiy. replace (qlt (after + 10) now2) with false; [reflexivity|].
  symmetry. apply qlt_false. exact Hle.
Qed.

(** Witness of [X_sensitivity_rate_limited]. *)
Lemma X_sensitivity_rate_limited_witness :
  Sens.check_sensitivitiy 1 26 20 21 0 = Some (Some 27%Z, 21) /\
  Sens.check_sensitivitiy 1 27 25 26 21 = Some (None, 21).
Proof.
  assert (H : Sens.check_sensitivitiy 1 26 20 21 0 = Some (Some 27%Z, 21)) by reflexivity.
  split; [exact H|].
  destruct (X_sensitivity_rate_limited 1 26 20 21 0 27%Z 21 H) as [_ Hn].
  apply Hn. unfold Qle. simpl. lia.
Defined.

(** X16 (sensitivity edges).  The index step is not bounded by the
    27-entry table.  At index 26 (1 V) an overload commands index 27, and
    a due check at 27 raises [IndexError].  At index 0 a signal below
    0.5 nV commands index -1, which Python reads as the last entry (1 V);
    a due check at -1 with a signal below 0.25 V then commands -2. *)
Theorem X_sensitivity_range_edges r now after t :
  t + 10 < now ->
  (9 # 10 < r -> Sens.check_sensitivitiy r 26 now after t = Some (Some 27%Z, after)) /\
  (r < 1 # 2000000000 -> Sens.check_sensitivitiy r 0 now after t = Some (Some (-1)%Z, after)) /\
  Sens.check_sensitivitiy r 27 now after t = None /\
  (r < 1 # 4 -> Sens.check_sensitivitiy r (-1) now after t = Some (Some (-2)%Z, after)).
Proof.
  intro Hdue. apply qlt_true in Hdue. unfold Sens.check_sensitivitiy. rewrite Hdue.
  split; [| split; [| split]].
  - intro Hr. assert (H1 : qlt ((9 # 10) * 1) r = true) by (apply qlt_true; exact Hr).
    change (py_index Sens.sensitivity_list 26) with (Some (1 : Q)). cbv beta iota.
    rewrite H1. reflexivity.
  - intro Hr.
    assert (H1 : qlt ((9 # 10) * (2 # 1000000000)) r = false).
    { apply qlt_false. apply Qlt_le_weak. apply (Qlt_trans _ _ _ Hr). reflexivity. }
    assert (H2 : qlt r ((1 # 4) * (2 # 1000000000)) = true).
    { apply qlt_true. apply (Qlt_le_trans _ _ _ Hr). unfold Qle. simpl. lia. }
    change (py_index Sens.sensitivity_list 0) with (Some (2 # 1000000000)). cbv beta iota.
    rewrite H1, H2. reflexivity.
  - reflexivity.
  - intro Hr.
    assert (H1 : qlt ((9 # 10) * 1) r = false).
    { apply qlt_false. apply Qlt_le_weak. apply (Qlt_trans _ _ _ Hr). reflexivity. }
    assert (H2 : qlt r ((1 # 4) * 1) = true) by (apply qlt_true; exact Hr).
    change (py_index Sens.sensitivity_list (-1)) with (Some (1 : Q)). cbv beta iota.
    rewrite H1, H2. reflexivity.
Qed.

(** Witness of [X_sensitivity_range_edges]. *)
Lemma X_sensitivity_range_edges_witness :
  Sens.check_sensitivitiy 1 26 20 21 0 = Some (Some 27%Z, 21) /\
  Sens.check_sensitivitiy (1 # 10000000000) 0 20 21 0 = Some (Some (-1)%Z, 21).
Proof.
  destruct (X_sensitivity_range_edges 1 20 21 0 ltac:(reflexivity)) as [H26 _].
  destruct (X_sensitivity_range_edges (1 # 10000000000) 20 21 0 ltac:(reflexivity)) as [_ [H0 _]].
  split; [apply H26 | apply H0]; reflexivity.
Defined.

(** X17 (zero sweep rate).  The range check of [SRS830RvTBlue.__init__]
    accepts a sweep rate of 0, and [_start_sweep] then divides by it
    ([ZeroDivisionError]).  For an accepted non-zero rate, the sweep time
    times the rate is the temperature distance to cover. *)
Theorem X_zero_rate_accepted_then_divides_by_zero :
  (forall te, 0 <= te -> te <= 295 ->
     srs_init_accepts te 0 = true /\ forall T1, sweep_time T1 te 0 = None) /\
  (forall te rate c, srs_init_accepts te rate = true -> ~ rate == 0 ->
     exists t, sweep_time (Fin c) te rate = Some (Fin t) /\ t * rate == Qabs (c - te)).
Proof.
  split.
  - intros te H0 H1. split; [| reflexivity].
    unfold srs_init_accepts. apply Qle_bool_iff in H0. apply Qle_bool_iff in H1.
    rewrite H0, H1. reflexivity.
  - intros te rate c Hacc Hnz. unfold srs_init_accepts in Hacc.
    rewrite !andb_true_iff, !Qle_bool_iff in Hacc. destruct Hacc as [[_ Hr0] _].
    unfold sweep_time. destruct (qzero rate) eqn:E.
    + unfold qzero in E. apply Qeq_bool_iff in E. contradiction.
    + eexists. split; [reflexivity|].
      unfold Qdiv. rewrite Qabs_Qmult, Qabs_Qinv, (Qabs_pos rate Hr0). field. exact Hnz.
Qed.

(** Witness of [X_zero_rate_accepted_then_divides_by_zero]. *)
Lemma X_zero_rate_accepted_then_divides_by_zero_witness :
  (srs_init_accepts 2 0 = true /\ sweep_time (Fin 300) 2 0 = None) /\
  exists t, sweep_time (Fin 300) 2 1 = Some (Fin t) /\ t * 1 == Qabs (300 - 2).
Proof.
  split.
  - destruct (proj1 X_zero_rate_accepted_then_divides_by_zero 2 ltac:(reflexivity || discriminate)
                ltac:(reflexivity || discriminate)) as [Ha Hs].
    split; [exact Ha | apply Hs].
  - apply (proj2 X_zero_rate_accepted_then_divides_by_zero); [reflexivity | discriminate].
Defined.

(** ** GPIB timeouts *)

Lemma first_at_least_least x lst :
  StronglySorted (fun a b => fst a < fst b) lst ->
  (exists v r, In (v, r) lst /\ x <= v) ->
  exists v, In (v, Gpib.first_at_least (Fin x) lst) lst /\ x <= v /\
    forall w r, In (w, r) lst -> x <= w -> v <= w.
Proof.
  induction lst as [|[v0 r0] rest IH]; intros Hs Hex.
  - destruct Hex as [v [r [[] _]]].
  - apply StronglySorted_inv in Hs. destruct Hs as [Hs Hf].
    simpl. destruct (Qle_bool x v0) eqn:E.
    + apply Qle_bool_iff in E. exists v0. split; [left; reflexivity | split; [exact E |]].
      intros w r [Heq | Hin]; [injection Heq as -> _; intros; apply Qle_refl |].
      intros _. rewrite Forall_forall in Hf. apply Qlt_le_weak. exact (Hf (w, r) Hin).
    + assert (Hx : v0 < x).
      { apply Qnot_le_lt. intro H. apply Qle_bool_iff in H. congruence. }
      destruct IH as [v [Hin [Hxv Hmin]]]; [exact Hs| |].
      { destruct Hex as [v [r [[Heq | Hin] Hle]]].
        - injection Heq as -> ->. exfalso. apply (Qlt_not_le _ _ Hx Hle).
        - eauto. }
      exists v. split; [right; exact Hin | split; [exact Hxv |]].
      intros w r [Heq | Hin'] Hle.
      * injection Heq as -> ->. exfalso. apply (Qlt_not_le _ _ Hx Hle).
      * exact (Hmin w r Hin' Hle).
Qed.

Lemma first_at_least_above x lst :
  (forall v r, In (v, r) lst -> v < x) -> Gpib.first_at_least (Fin x) lst = Gpib.T1000s.
Proof.
  induction lst as [|[v0 r0] rest IH]; intro H; [reflexivity|]. simpl.
  destruct (Qle_bool x v0) eqn:E.
  - apply Qle_bool_iff in E. exfalso. apply (Qlt_not_le _ _ (H v0 r0 (or_introl eq_refl)) E).
  - apply IH. intros v r Hin. exact (H v r (or_intror Hin)).
Qed.

Lemma first_at_least_nan lst : Gpib.first_at_least NaN lst = Gpib.T1000s.
Proof. induction lst as [|[v0 r0] rest IH]; [reflexivity | exact IH]. Qed.

Lemma gpib_timeout_list_sorted :
  StronglySorted (fun a b => fst a < fst b) Gpib.gpib_timeout_list.
Proof.
  unfold Gpib.gpib_timeout_list.
  repeat (apply SSorted_cons; [| repeat (apply Forall_cons; [reflexivity |]); apply Forall_nil]).
  apply SSorted_nil.
Qed.

Lemma gpib_timeout_list_max v r : In (v, r) Gpib.gpib_timeout_list -> v <= 1000.
Proof.
  assert (H : forallb (fun p => Qle_bool (fst p) 1000) Gpib.gpib_timeout_list = true)
    by reflexivity.
  rewrite forallb_forall in H. intro Hin. apply Qle_bool_iff. exact (H (v, r) Hin).
Qed.

(** X18 (GPIB timeout).  [get_gpib_timeout] does not pick the nearest
    constant: it returns the one of the least listed value at or above
    the timeout, so it rounds up (and a timeout of 0 or less gives
    [TNONE], no timeout at all).  Above 1000 s, or for NaN, it returns
    [T1000s]. *)
Theorem X_gpib_timeout_rounds_up timeout :
  (timeout <= 1000 ->
   exists val, In (val, Gpib.get_gpib_timeout (Fin timeout)) Gpib.gpib_timeout_list /\
     timeout <= val /\
     forall w r, In (w, r) Gpib.gpib_timeout_list -> timeout <= w -> val <= w) /\
  (1000 < timeout -> Gpib.get_gpib_timeout (Fin timeout) = Gpib.T1000s) /\
  Gpib.get_gpib_timeout NaN = Gpib.T1000s.
Proof.
  split; [| split].
  - intro H. apply first_at_least_least; [exact gpib_timeout_list_sorted |].
    exists 1000, Gpib.T1000s. split; [| exact H]. simpl. tauto.
  - intro H. apply first_at_least_above. intros v r Hin.
    exact (Qle_lt_trans _ _ _ (gpib_timeout_list_max v r Hin) H).
  - apply first_at_least_nan.
Qed.

(** Witness of [X_gpib_timeout_rounds_up]: 120 us gives 300 us. *)
Lemma X_gpib_timeout_rounds_up_witness :
  (120 # 1000000 <= 1000 /\
   exists val, In (val, Gpib.get_gpib_timeout (Fin (120 # 1000000))) Gpib.gpib_timeout_list /\
     120 # 1000000 <= val /\
     forall w r, In (w, r) Gpib.gpib_timeout_list -> 120 # 1000000 <= w -> val <= w) /\
  (1000 < 2000 /\ Gpib.get_gpib_timeout (Fin 2000) = Gpib.T1000s) /\
  Gpib.get_gpib_timeout (Fin (120 # 1000000)) = Gpib.T300us.
Proof.
  assert (H1 : 120 # 1000000 <= 1000) by (unfold Qle; simpl; lia).
  assert (H2 : 1000 < 2000) by (unfold Qlt; simpl; lia).
  split; [split; [exact H1 | exact (proj1 (X_gpib_timeout_rounds_up _) H1)] |].
  split; [split; [exact H2 | exact (proj1 (proj2 (X_gpib_timeout_rounds_up _)) H2)] |].
  reflexivity.
Defined.

(** ** The hysteresis sweep *)

Lemma linspace_bounded a b n m v :
  Qabs a <= m -> Qabs b <= m -> In v (linspace a b n) -> Qabs v <= m.
Proof.
  intros Ha Hb Hin. destruct n as [|[|k]].
  - destruct Hin.
  - destruct Hin as [<- | []]. exact Ha.
  - rewrite linspace_eq in Hin. apply in_map_iff in Hin. destruct Hin as [i [<- Hi]].
    apply in_seq in Hi.
    pose proof (inject_succ_nz k) as Hk.
    assert (Hc : 0 < inject_Z (Z.of_nat (S k))) by (unfold Qlt; simpl; lia).
    set (t := inject_Z (Z.of_nat i) / inject_Z (Z.of_nat (S k))).
    assert (Ht0 : 0 <= t).
    { unfold t. apply Qle_shift_div_l; [exact Hc |]. rewrite Qmult_0_l.
      unfold Qle; simpl; lia. }
    assert (Ht1 : t <= 1).
    { unfold t. apply Qle_shift_div_r; [exact Hc |]. rewrite Qmult_1_l.
      unfold Qle; simpl; lia. }
    setoid_replace (a + inject_Z (Z.of_nat i) * (b - a) / inject_Z (Z.of_nat (S k)))
      with ((1 - t) * a + t * b) by (unfold t; field; exact Hk).
    apply (Qle_trans _ _ _ (Qabs_triangle _ _)).
    rewrite !Qabs_Qmult, (Qabs_pos t Ht0), (Qabs_pos (1 - t)).
    2: { apply (Qplus_le_l _ _ t). ring_simplify. exact Ht1. }
    setoid_replace m with ((1 - t) * m + t * m) by ring.
    assert (Ht1' : 0 <= 1 - t) by (apply (Qplus_le_l _ _ t); ring_simplify; exact Ht1).
    rewrite (Qmult_comm (1 - t) (Qabs a)), (Qmult_comm t (Qabs b)),
      (Qmult_comm (1 - t) m), (Qmult_comm t m).
    apply Qplus_le_compat; apply Qmult_le_compat_r; assumption.
Qed.

Lemma length_concat_repeat {A} (l : list A) n :
  length (concat (repeat l n)) = (n * length l)%nat.
Proof. induction n as [|n IH]; [reflexivity|]. simpl. rewrite length_app, IH. reflexivity. Qed.

Lemma in_concat_repeat {A} (l : list A) n v : In v (concat (repeat l n)) -> In v l.
Proof.
  intro H. apply in_concat in H. destruct H as [l' [Hl' Hv]].
  apply repeat_spec in Hl'. subst l'. exact Hv.
Qed.

Lemma esweep_space_bounded max_voltage n loop_count v :
  In v (ESweep.setup_voltage_space max_voltage n loop_count) -> Qabs v <= Qabs max_voltage.
Proof.
  unfold ESweep.setup_voltage_space. cbv zeta. intro Hin.
  assert (Hm : Qabs (-1 * max_voltage) <= Qabs max_voltage).
  { rewrite Qabs_Qmult. simpl. rewrite Qmult_1_l. apply Qle_refl. }
  assert (H0 : Qabs 0 <= Qabs max_voltage) by apply Qabs_nonneg.
  assert (Hmm : Qabs max_voltage <= Qabs max_voltage) by apply Qle_refl.
  repeat (apply in_app_or in Hin; destruct Hin as [Hin | Hin]);
    try (apply in_concat_repeat in Hin;
         repeat (apply in_app_or in Hin; destruct Hin as [Hin | Hin]));
    (eapply linspace_bounded; [| | exact Hin]; assumption).
Qed.

(** X19 (hysteresis loop).  The voltage space of the hysteresis sweep has
    [(2 + 4 loop_count) n] points, none of them above [max_voltage] in
    magnitude.  For [n >= 2] it starts and ends at 0 V, and with at least
    one loop its point [3 n - 1] is [-max_voltage]. *)
Theorem X_hysteresis_space max_voltage n loop_count :
  length (ESweep.setup_voltage_space max_voltage n loop_count) = ((2 + 4 * loop_count) * n)%nat /\
  (forall v, In v (ESweep.setup_voltage_space max_voltage n loop_count) ->
     Qabs v <= Qabs max_voltage) /\
  ((2 <= n)%nat ->
   nth 0 (ESweep.setup_voltage_space max_voltage n loop_count) 0 == 0 /\
   nth (length (ESweep.setup_voltage_space max_voltage n loop_count) - 1)
       (ESweep.setup_voltage_space max_voltage n loop_count) 0 == 0 /\
   ((1 <= loop_count)%nat ->
    nth (3 * n - 1) (ESweep.setup_voltage_space max_voltage n loop_count) 0 == - max_voltage)).
Proof.
  split; [| split].
  - unfold ESweep.setup_voltage_space. cbv zeta. rewrite !length_app, length_concat_repeat, !length_app, !linspace_length. lia.
  - apply esweep_space_bounded.
  - intro Hn. unfold ESweep.setup_voltage_space. cbv zeta. destruct n as [|[|k]]; [lia | lia |].
    pose proof (inject_succ_nz k) as Hk. split; [| split].
    + rewrite app_nth1 by (rewrite linspace_length; lia).
      rewrite linspace_nth by lia. simpl. field. exact Hk.
    + rewrite app_assoc, length_app, (app_nth2 (linspace 0 _ _ ++ _)), linspace_length
        by (rewrite linspace_length; lia).
      match goal with |- nth (?a + S (S k) - 1 - ?a) _ _ == _ =>
        replace (a + S (S k) - 1 - a)%nat with (S k) by lia end.
      rewrite linspace_nth by lia. field. exact Hk.
    + intro HL. destruct loop_count as [|L]; [lia |]. cbn [repeat concat].
      rewrite app_nth2 by (rewrite linspace_length; lia).
      rewrite linspace_length.
      rewrite <- !app_assoc.
      rewrite app_nth2 by (rewrite linspace_length; lia).
      rewrite linspace_length.
      rewrite app_nth1 by (rewrite linspace_length; lia).
      replace (3 * S (S k) - 1 - S (S k) - S (S k))%nat with (S k) by lia.
      rewrite linspace_nth by lia. field. exact Hk.
Qed.

(** Witness of [X_hysteresis_space]: the loop of 2 V with three points
    per branch reaches -2 V. *)
Lemma X_hysteresis_space_witness :
  (2 <= 3)%nat /\ (1 <= 1)%nat /\
  nth (3 * 3 - 1) (ESweep.setup_voltage_space 2 3 1) 0 == - 2.
Proof.
  assert (H2 : (2 <= 3)%nat) by lia. assert (H1 : (1 <= 1)%nat) by lia.
  split; [exact H2 | split; [exact H1 |]].
  exact (proj2 (proj2 (proj2 (proj2 (X_hysteresis_space 2 3 1)) H2)) H1).
Defined.

Lemma esweep_sweep_bounded is_set dev_read t3_read m space :
  (forall v, In v space -> Qabs v <= m) ->
  emits_only (fun e => forall v, e = SetVoltage v -> Qabs v <= m)
    (ESweep.sweep_voltage is_set dev_read t3_read space).
Proof.
  induction space as [|w rest IH]; intro Hb; simpl; unfold ESweep.acquire_data_point;
    eo; try (apply IH; intros v Hv; apply Hb; right; exact Hv);
    apply eo_emit; intros v Hv; try discriminate.
  injection Hv as <-. apply Hb. left. reflexivity.
Qed.

(** X20 (hysteresis run within range).  Whatever the stop flag and the
    instruments do, a run of [SMU2ProbeESweep2636A._measure] never
    applies a voltage above [max_voltage] in magnitude. *)
Theorem X_esweep_voltage_bounded is_set dev_read t3_read max_voltage n loop_count :
  emits_only (fun e => forall v, e = SetVoltage v -> Qabs v <= Qabs max_voltage)
    (ESweep.measure is_set dev_read t3_read max_voltage n loop_count).
Proof.
  unfold ESweep.measure. eo; try (apply eo_emit; intros v Hv; discriminate).
  - apply esweep_sweep_bounded. apply esweep_space_bounded.
  - apply eo_emit. intros v Hv. injection Hv as <-. apply Qabs_nonneg.
Qed.

(** ** The field-step sweep with retries *)

Lemma ivu_retry_value_errors acq n d p t tr k :
  (forall j, (j < k)%nat -> acq (t + j)%nat = IvU.ValueErr) -> (k < n)%nat ->
  IvU.acquire_retrying acq n (mkSt tr (IvU.mkIu d p t)) =
  IvU.acquire_retrying acq (n - k) (mkSt tr (IvU.mkIu d p (t + k))).
Proof.
  revert n t. induction k as [|k IH]; intros n t Hv Hn.
  - rewrite Nat.sub_0_r, Nat.add_0_r. reflexivity.
  - destruct n as [|n]; [lia|].
    assert (H0 := Hv 0%nat ltac:(lia)). rewrite Nat.add_0_r in H0.
    cbn [IvU.acquire_retrying]. unfold bind, get_loc, get, ret, set_loc, modify. simpl.
    rewrite H0. rewrite (IH n (S t)).
    + replace (S t + k)%nat with (t + S k)%nat by lia. reflexivity.
    + intros j Hj. replace (S t + j)%nat with (t + S j)%nat by lia. apply Hv. lia.
    + lia.
Qed.

(** X21 (ValueError retry).  In [SMU2ProbeHSweep2636AIvU._sweep_voltage]
    an acquisition that raises [ValueError] is repeated without any trace
    until one succeeds, which writes its line; any other exception leaves
    the loop.  When every attempt raises [ValueError] the loop never
    ends. *)
Theorem X_ivu_value_error_retried acq tr d p t :
  (forall k vals n, (forall j, (j < k)%nat -> acq (t + j)%nat = IvU.ValueErr) ->
     acq (t + k)%nat = IvU.Values vals -> (k < n)%nat ->
     IvU.acquire_retrying acq n (mkSt tr (IvU.mkIu d p t)) =
       Ok tt (mkSt (tr ++ [Record vals; EmitData]) (IvU.mkIu d p (t + S k)))) /\
  (forall k n, (forall j, (j < k)%nat -> acq (t + j)%nat = IvU.ValueErr) ->
     acq (t + k)%nat = IvU.OtherErr -> (k < n)%nat ->
     IvU.acquire_retrying acq n (mkSt tr (IvU.mkIu d p t)) =
       Raise DeviceError (mkSt tr (IvU.mkIu d p (t + S k)))) /\
  ((forall j, acq (t + j)%nat = IvU.ValueErr) ->
   forall n, IvU.acquire_retrying acq n (mkSt tr (IvU.mkIu d p t)) =
     Raise OutOfFuel (mkSt tr (IvU.mkIu d p (t + n)))).
Proof.
  split; [| split].
  - intros k vals n Hv Hk Hn. rewrite (ivu_retry_value_errors acq n d p t tr k Hv Hn).
    destruct (n - k)%nat as [|m] eqn:E; [lia|].
    cbn [IvU.acquire_retrying]. unfold bind, get_loc, get, ret, set_loc, emit, modify. simpl.
    rewrite Hk. simpl. rewrite <- app_assoc, Nat.add_succ_r. reflexivity.
  - intros k n Hv Hk Hn. rewrite (ivu_retry_value_errors acq n d p t tr k Hv Hn).
    destruct (n - k)%nat as [|m] eqn:E; [lia|].
    cbn [IvU.acquire_retrying]. unfold bind, get_loc, get, ret, set_loc, raise, modify. simpl.
    rewrite Hk. rewrite Nat.add_succ_r. reflexivity.
  - intros Hv n. revert t Hv. induction n as [|n IH]; intros t Hv.
    + rewrite Nat.add_0_r. reflexivity.
    + cbn [IvU.acquire_retrying]. unfold bind, get_loc, get, ret, set_loc, modify. simpl.
      assert (H0 := Hv 0%nat). rewrite Nat.add_0_r in H0. rewrite H0.
      rewrite (IH (S t)).
      * rewrite Nat.add_succ_r. reflexivity.
      * intro j. pose proof (Hv (S j)) as Hj.
        replace (t + S j)%nat with (S t + j)%nat in Hj by lia. exact Hj.
Qed.

(** Witness of [X_ivu_value_error_retried]: two [ValueError]s, then the
    values; and an instrument that always raises [ValueError]. *)
Lemma X_ivu_value_error_retried_witness :
  IvU.acquire_retrying (fun t => if (t <? 2)%nat then IvU.ValueErr else IvU.Values [1; 2]) 5
    (mkSt [] (IvU.mkIu 0 0 0)) = Ok tt (mkSt [Record [1; 2]; EmitData] (IvU.mkIu 0 0 3)) /\
  IvU.acquire_retrying (fun t => if (t <? 2)%nat then IvU.ValueErr else IvU.OtherErr) 5
    (mkSt [] (IvU.mkIu 0 0 0)) = Raise DeviceError (mkSt [] (IvU.mkIu 0 0 3)) /\
  IvU.acquire_retrying (fun _ => IvU.ValueErr) 7 (mkSt [] (IvU.mkIu 0 0 0)) =
    Raise OutOfFuel (mkSt [] (IvU.mkIu 0 0 7)).
Proof.
  split; [| split].
  - exact (proj1 (X_ivu_value_error_retried
             (fun t => if (t <? 2)%nat then IvU.ValueErr else IvU.Values [1; 2]) [] 0 0 0)
             2%nat [1; 2] 5%nat ltac:(intros j Hj; destruct j as [|[|j]]; [reflexivity | reflexivity | lia])
             eq_refl ltac:(lia)).
  - exact (proj1 (proj2 (X_ivu_value_error_retried
             (fun t => if (t <? 2)%nat then IvU.ValueErr else IvU.OtherErr) [] 0 0 0))
             2%nat 5%nat ltac:(intros j Hj; destruct j as [|[|j]]; [reflexivity | reflexivity | lia])
             eq_refl ltac:(lia)).
  - exact (proj2 (proj2 (X_ivu_value_error_retried (fun _ => IvU.ValueErr) [] 0 0 0))
             (fun _ => eq_refl) 7%nat).
Defined.

Lemma eo_targets {X A} (m : M (St X) A) s :
  emits_only no_target m ->
  match m s with Ok _ s' | Raise _ s' => targets (trace s') = targets (trace s) end.
Proof.
  intro H. specialize (H s).
  assert (Hn : forall ext, Forall no_target ext -> targets ext = []).
  { induction 1 as [|e ext He _ IH]; [reflexivity|].
    simpl. rewrite IH, app_nil_r. destruct e; try reflexivity. exfalso. exact (He f eq_refl). }
  destruct (m s) as [a s' | e s']; destruct H as [ext [Ht Hf]];
    rewrite Ht, targets_app, (Hn ext Hf), app_nil_r; reflexivity.
Qed.

Lemma ivu_retry_no_target acq n : emits_only (X:=IvU.iu) no_target (IvU.acquire_retrying acq n).
Proof.
  induction n as [|n IH]; simpl; eo; try exact IH; apply eo_emit; intros g; discriminate.
Qed.

Lemma ivu_sweep_no_target is_set acq fuel space :
  emits_only no_target (IvU.sweep_voltage is_set acq fuel space).
Proof.
  induction space as [|v rest IH]; simpl; unfold IvU.should_stop, IvU.step_done;
    eo; try exact IH; try apply ivu_retry_no_target; apply eo_emit; intros g; discriminate.
Qed.

Lemma ivu_wait_field_no_target mag_read n field :
  emits_only (X:=IvU.iu) no_target (IvU.wait_field mag_read n field).
Proof.
  induction n as [|n IH]; simpl; eo; try exact IH; apply eo_emit; intros g; discriminate.
Qed.

Lemma ivu_wait_zero_no_target zero_read n k field :
  emits_only (X:=IvU.iu) no_target (IvU.wait_zero zero_read n k field).
Proof.
  revert k field. induction n as [|n IH]; intros k field; simpl; eo; try apply IH;
    apply eo_emit; intros g; discriminate.
Qed.

Lemma ivu_field_loop_targets is_set mag_read acq fuel space fields : forall s,
  match IvU.field_loop is_set mag_read acq fuel space fields s with
  | Ok _ s' | Raise _ s' => exists j, targets (trace s') = targets (trace s) ++ firstn j fields
  end.
Proof.
  induction fields as [|field rest IH]; intro s.
  - exists 0%nat. simpl. rewrite app_nil_r. reflexivity.
  - cbn [IvU.field_loop]. unfold bind at 1. cbv beta.
    replace (IvU.should_stop is_set s) with (Ok (S:=St IvU.iu) (is_set (IvU.done (loc s))) s)
      by reflexivity.
    destruct (is_set (IvU.done (loc s))).
    { exists 0%nat. simpl. rewrite app_nil_r. reflexivity. }
    unfold IvU.goto_field_and_stabilize. unfold bind at 1 2. cbv beta. unfold emit at 1, modify.
    set (s1 := {| trace := trace s ++ [SetTargetField field]; loc := loc s |}).
    assert (Hs1 : targets (trace s1) = targets (trace s) ++ firstn 1 (field :: rest))
      by (simpl; rewrite targets_app; reflexivity).
    match goal with |- context [?m s1] =>
      assert (Hg : emits_only no_target m) by
        (eo; try apply ivu_wait_field_no_target; apply eo_emit; intros g; discriminate);
      pose proof (eo_targets m s1 Hg) as H1; destruct (m s1) as [[] s2 | e s2]
    end; [| exists 1%nat; rewrite H1; exact Hs1].
    unfold bind at 1. cbv beta.
    assert (Ht : emits_only no_target
                   (try_except (IvU.sweep_voltage is_set acq fuel space) IvU.log_exception)).
    { apply eo_try; [apply ivu_sweep_no_target |]. intros []; simpl; try apply eo_raise;
        apply eo_emit; intros g; discriminate. }
    pose proof (eo_targets _ s2 Ht) as H2.
    destruct (try_except (IvU.sweep_voltage is_set acq fuel space) IvU.log_exception s2)
      as [[] s3 | e s3]; [| exists 1%nat; rewrite H2, H1; exact Hs1].
    specialize (IH s3).
    destruct (IvU.field_loop is_set mag_read acq fuel space rest s3) as [[] s4 | e s4];
      destruct IH as [j Hj]; exists (S j); rewrite Hj, H2, H1, Hs1; simpl;
      rewrite <- app_assoc; reflexivity.
Qed.


Lemma emit_bind {X A} e (m : M (St X) A) s :
  (emit e ;; m) s = m (mkSt (trace s ++ [e]) (loc s)).
Proof. reflexivity. Qed.

Lemma ivu_deinit_targets zero_read fuel s :
  match IvU.deinitialize_device zero_read fuel s with
  | Ok _ s' | Raise _ s' => targets (trace s') = targets (trace s) ++ [0]
  end.
Proof.
  unfold IvU.deinitialize_device. rewrite !emit_bind.
  match goal with |- match ?m ?s1 with _ => _ end =>
    assert (Hg : emits_only no_target m) by
      (eo; try apply ivu_wait_zero_no_target; apply eo_emit; intros g; discriminate);
    pose proof (eo_targets m s1 Hg) as H1; destruct (m s1)
  end; simpl in H1; rewrite H1, !targets_app; simpl; rewrite !app_nil_r; reflexivity.
Qed.

(** X22 (field sequence).  The fields sent to [set_target_field] in a run
    of [SMU2ProbeHSweep2636AIvU._measure] are the first fields of
    [_fields], in order, and then 0 from the teardown; a run that
    returns always ends with that 0.  When the constructor accepts the
    fields, every target lies within [-10, 10] T. *)
Theorem X_ivu_targets_follow_fields is_set mag_read zero_read acq fuel max_voltage n fields rate :
  match IvU.measure is_set mag_read zero_read acq fuel max_voltage n fields IvU.start with
  | Ok _ s => exists j, targets (trace s) = firstn j fields ++ [0]
  | Raise _ s => exists j, targets (trace s) = firstn j fields \/
                           targets (trace s) = firstn j fields ++ [0]
  end /\
  (IvU.init_accepts fields rate = true ->
   match IvU.measure is_set mag_read zero_read acq fuel max_voltage n fields IvU.start with
   | Ok _ s | Raise _ s => forall f, In f (targets (trace s)) -> -10 <= f /\ f <= 10
   end).
Proof.
  assert (Hrun :
    match IvU.measure is_set mag_read zero_read acq fuel max_voltage n fields IvU.start with
    | Ok _ s => exists j, targets (trace s) = firstn j fields ++ [0]
    | Raise _ s => exists j, targets (trace s) = firstn j fields \/
                             targets (trace s) = firstn j fields ++ [0]
    end).
  { replace (IvU.measure is_set mag_read zero_read acq fuel max_voltage n fields IvU.start)
      with ((IvU.field_loop is_set mag_read acq fuel (IvU.setup_voltage_space max_voltage n) fields ;;
             IvU.deinitialize_device zero_read fuel)
              (mkSt [WriteHeader; Arm; SetSweepMode HOLD; Sleep (1#2)] (IvU.mkIu 0 0 0)))
      by reflexivity.
    unfold bind at 1.
    match goal with |- context [IvU.field_loop ?a ?b ?c ?d ?e ?f ?s0] =>
      pose proof (ivu_field_loop_targets a b c d e f s0) as H1; destruct (IvU.field_loop a b c d e f s0)
        as [[] s1 | ex s1]; destruct H1 as [j Hj]; simpl in Hj
    end.
    - pose proof (ivu_deinit_targets zero_read fuel s1) as H2.
      destruct (IvU.deinitialize_device zero_read fuel s1); exists j; rewrite H2, Hj; auto.
    - exists j. left. exact Hj. }
  split; [exact Hrun |].
  intro Hacc. unfold IvU.init_accepts in Hacc. rewrite !andb_true_iff in Hacc.
  destruct Hacc as [[Hall _] _]. rewrite forallb_forall in Hall.
  assert (Hb : forall j f, In f (firstn j fields ++ [0]) -> -10 <= f /\ f <= 10).
  { intros j f Hin. apply in_app_or in Hin. destruct Hin as [Hin | [<- | []]].
    - assert (Hf : In f fields)
        by (rewrite <- (firstn_skipn j fields); apply in_or_app; left; exact Hin).
      specialize (Hall f Hf). rewrite andb_true_iff, !Qle_bool_iff in Hall. exact Hall.
    - split; unfold Qle; simpl; lia. }
  destruct (IvU.measure is_set mag_read zero_read acq fuel max_voltage n fields IvU.start);
    destruct Hrun as [j Hj]; intros f Hin.
  - rewrite Hj in Hin. exact (Hb j f Hin).
  - destruct Hj as [Hj | Hj]; rewrite Hj in Hin; [| exact (Hb j f Hin)].
    apply (Hb j f). apply in_or_app. left. exact Hin.
Qed.

(** Witness of [X_ivu_targets_follow_fields]. *)
Lemma X_ivu_targets_follow_fields_witness :
  IvU.init_accepts [1; -1] (1 # 10) = true /\
  match IvU.measure (fun _ => false) (fun _ => Some 1) (fun _ => Some 0) (fun _ => IvU.Values [0])
          3%nat 1 2%nat [1; -1] IvU.start with
  | Ok _ s | Raise _ s => forall f, In f (targets (trace s)) -> -10 <= f /\ f <= 10
  end.
Proof.
  assert (H : IvU.init_accepts [1; -1] (1 # 10) = true) by reflexivity.
  split; [exact H |].
  pose proof (X_ivu_targets_follow_fields (fun _ => false) (fun _ => Some 1) (fun _ => Some 0)
                (fun _ => IvU.Values [0]) 3%nat 1 2%nat [1; -1] (1 # 10)) as [_ HX].
  exact (HX H).
Defined.
